(** * miniCRM: weighted, capacity-aware distribution of requests to operators

    A shallow embedding of the lead distribution service:
    - [app/models/models.py]: the tables and [Operator.get_current_load];
    - [app/services/distribution_service.py]: [DistributionService];
    - [app/api/requests.py]: [create_request], [update_request_status];
    - [app/api/sources.py]: [configure_source_weights].

    Python integers are [Z]; strings are [string]; a table is the list of its
    rows in row order (order and duplicates matter for the weighted draw);
    [Optional] columns are [option].  The [created_at] columns hold wall-clock
    time and are read by nothing modelled here, so they are left out. *)

From Stdlib Require Import List ZArith QArith Qround String Bool Lia DecimalString.
Import ListNotations.

Local Open Scope string_scope.
Local Open Scope Z_scope.

(** ** Tables ([app/models/models.py]) *)

Module Operator.
Record t : Type := mk
  { id : Z; name : string; is_active : bool; max_load : Z }.
End Operator.

Module Lead.
Record t : Type := mk
  { id : Z; external_id : string; name : option string;
    email : option string; phone : option string }.
End Lead.

Module Source.
Record t : Type := mk
  { id : Z; name : string; description : option string }.
End Source.

Module OperatorSourceWeight.
Record t : Type := mk
  { id : Z; operator_id : Z; source_id : Z; weight : Z }.
End OperatorSourceWeight.

Module Request.
Record t : Type := mk
  { id : Z; lead_id : Z; source_id : Z; operator_id : option Z;
    status : string; message : option string }.
End Request.

(** The database: one list of rows per [__tablename__]. *)
Record Db : Type := mkDb
  { operators : list Operator.t;
    leads : list Lead.t;
    sources : list Source.t;
    operator_source_weights : list OperatorSourceWeight.t;
    requests : list Request.t }.

Definition empty_db : Db := mkDb [] [] [] [] [].

(** ** Request and response bodies ([app/schemas/schemas.py]) *)

Module OperatorSourceWeightCreate.
Record t : Type := mk { operator_id : Z; weight : Z }.
End OperatorSourceWeightCreate.

Module OperatorSourceWeightResponse.
Record t : Type := mk
  { id : Z; operator_id : Z; source_id : Z; weight : Z;
    operator_name : string }.
End OperatorSourceWeightResponse.

Module RequestCreate.
Record t : Type := mk
  { lead_external_id : string; source_id : Z; message : option string;
    lead_name : option string; lead_email : option string;
    lead_phone : option string }.
End RequestCreate.

Module RequestResponse.
Record t : Type := mk
  { id : Z; lead_id : Z; source_id : Z; operator_id : option Z;
    operator_name : option string; status : string;
    message : option string }.
End RequestResponse.

(** The dictionary returned by [get_operator_statistics]. *)
Module OperatorStatistics.
Record t : Type := mk
  { operator_id : Z; operator_name : string; total_requests : Z;
    current_load : Z; max_load : Z }.
End OperatorStatistics.

(** ** Exceptions and outcomes *)

Inductive exn : Type :=
| HTTPException (status_code : Z) (detail : string)
| AttributeError   (* attribute access on [None] *)
| ValueError (msg : string)
| IndexError.

Inductive outcome (A : Type) : Type :=
| Return (a : A)
| Raise (e : exn).
Arguments Return {A} a.
Arguments Raise {A} e.

Definition is_raise {A} (o : outcome A) : bool :=
  match o with Return _ => false | Raise _ => true end.

(** ** Queries *)

Definition opt_eqb (o : option Z) (k : Z) : bool :=
  match o with Some i => i =? k | None => false end.

(** [db.query(Operator).filter(Operator.id == k).first()], which is also what
    the [operator] relationship of a row holding the foreign key [k] loads. *)
Definition query_operator (db : Db) (k : Z) : option Operator.t :=
  find (fun o => Operator.id o =? k) (operators db).

Definition query_source (db : Db) (k : Z) : option Source.t :=
  find (fun s => Source.id s =? k) (sources db).

Definition query_request (db : Db) (k : Z) : option Request.t :=
  find (fun r => Request.id r =? k) (requests db).

Definition query_lead_by_external_id (db : Db) (e : string) : option Lead.t :=
  find (fun l => String.eqb (Lead.external_id l) e) (leads db).

Definition query_weights (db : Db) (source_id : Z)
  : list OperatorSourceWeight.t :=
  filter (fun w => OperatorSourceWeight.source_id w =? source_id)
         (operator_source_weights db).

(** [Operator.get_current_load]: the number of the operator's requests whose
    status is "active" ([scalar() or 0] of a count is the count). *)
Definition is_active_request_of (k : Z) (r : Request.t) : bool :=
  opt_eqb (Request.operator_id r) k && String.eqb (Request.status r) "active".

Definition get_current_load (db : Db) (self : Operator.t) : Z :=
  Z.of_nat (List.length (filter (is_active_request_of (Operator.id self))
                                (requests db))).

(** ** Sessions

    A handler works in a SQLAlchemy session: its INSERT, UPDATE and DELETE
    statements are pending in the session's transaction until [db.commit()],
    and its queries see the committed rows with its own pending statements
    applied.  Every handler of the repository commits explicitly.  The
    session is opened and closed per call by the [get_db] dependency of
    [app/database.py]; closing a session discards what was not committed. *)

Inductive write : Type :=
| InsertLead (row : Lead.t)
| InsertRequest (row : Request.t)
| InsertWeight (row : OperatorSourceWeight.t)
| DeleteWeights (source_id : Z)
| UpdateRequestStatus (request_id : Z) (status : string).

Definition set_status (k : Z) (st : string) (r : Request.t) : Request.t :=
  if Request.id r =? k
  then Request.mk (Request.id r) (Request.lead_id r) (Request.source_id r)
                  (Request.operator_id r) st (Request.message r)
  else r.

Definition apply_write (db : Db) (w : write) : Db :=
  match w with
  | InsertLead row =>
      mkDb (operators db) (leads db ++ [row]) (sources db)
           (operator_source_weights db) (requests db)
  | InsertRequest row =>
      mkDb (operators db) (leads db) (sources db)
           (operator_source_weights db) (requests db ++ [row])
  | InsertWeight row =>
      mkDb (operators db) (leads db) (sources db)
           (operator_source_weights db ++ [row]) (requests db)
  | DeleteWeights k =>
      mkDb (operators db) (leads db) (sources db)
           (filter (fun w => negb (OperatorSourceWeight.source_id w =? k))
                   (operator_source_weights db))
           (requests db)
  | UpdateRequestStatus k st =>
      mkDb (operators db) (leads db) (sources db)
           (operator_source_weights db) (map (set_status k st) (requests db))
  end.

Record Session : Type := mkSession
  { store : Db;                (* the committed database *)
    pending : list write }.    (* this session's uncommitted statements *)

Definition view (s : Session) : Db := fold_left apply_write (pending s) (store s).

Definition open_session (db : Db) : Session := mkSession db [].

(** The same session seen after other sessions have committed: its pending
    statements are kept, the committed database is the current one. *)
Definition on_store (s : Session) (db : Db) : Session := mkSession db (pending s).

(** A handler is a state-and-exception computation over its session. *)
Definition M (A : Type) : Type := Session -> outcome A * Session.

Definition ret {A} (a : A) : M A := fun s => (Return a, s).

Definition bind {A B} (m : M A) (k : A -> M B) : M B :=
  fun s => match m s with
           | (Return a, s') => k a s'
           | (Raise e, s') => (Raise e, s')
           end.

Definition raise {A} (e : exn) : M A := fun s => (Raise e, s).

Definition query {A} (q : Db -> A) : M A := fun s => (Return (q (view s)), s).

Definition lift {A} (f : Db -> outcome A) : M A := fun s => (f (view s), s).

Definition execute (w : write) : M unit :=
  fun s => (Return tt, mkSession (store s) (pending s ++ [w])).

Definition commit : M unit :=
  fun s => (Return tt, mkSession (view s) []).

Notation "x <- m ;; k" := (bind m (fun x => k))
  (at level 61, m at next level, right associativity).
Notation "m ;;; k" := (bind m (fun _ => k))
  (at level 61, right associativity).

(** One call of a handler on the committed database [db]: a fresh session is
    opened, the handler runs, the session is closed.  The result is the
    handler's outcome and the committed database afterwards. *)
Definition call {A} (m : M A) (db : Db) : outcome A * Db :=
  let (o, s) := m (open_session db) in (o, store s).

(** Primary keys are handed out as one more than the largest key in use. *)
Definition next_id (ids : list Z) : Z := 1 + fold_right Z.max 0 ids.

Definition add_lead (external_id : string) (name email phone : option string)
  : M Lead.t :=
  ids <- query (fun db => map Lead.id (leads db));;
  let row := Lead.mk (next_id ids) external_id name email phone in
  execute (InsertLead row);;; ret row.

Definition add_request (lead_id source_id : Z) (operator_id : option Z)
           (message : option string) (status : string) : M Request.t :=
  ids <- query (fun db => map Request.id (requests db));;
  let row := Request.mk (next_id ids) lead_id source_id operator_id status message in
  execute (InsertRequest row);;; ret row.

Definition add_weight (operator_id source_id weight : Z)
  : M OperatorSourceWeight.t :=
  ids <- query (fun db => map OperatorSourceWeight.id (operator_source_weights db));;
  let row := OperatorSourceWeight.mk (next_id ids) operator_id source_id weight in
  execute (InsertWeight row);;; ret row.

(** ** [random.choices]

    [random.choices(population, weights=weights, k=1)[0]] accumulates the
    weights, takes [total] as the last cumulative weight, and returns
    [population[bisect(cum_weights, random() * total, 0, n - 1)]].  The value
    of [random()], a number of [[0, 1)], is the argument [rnd]; it is a
    rational here and the product with [total] is exact. *)

Fixpoint accumulate (acc : Z) (ws : list Z) : list Z :=
  match ws with
  | [] => []
  | w :: ws' => (acc + w) :: accumulate (acc + w) ws'
  end.

Definition Qltb (x y : Q) : bool := negb (Qle_bool y x).

(** [bisect.bisect_right]: the loop halves [[lo, hi)] until it is empty; the
    fuel [hi - lo] is the length of the interval, which every pass shortens. *)
Fixpoint bisect_loop (fuel : nat) (a : list Z) (x : Q) (lo hi : nat) : nat :=
  match fuel with
  | O => lo
  | S fuel' =>
      if (lo <? hi)%nat then
        let mid := ((lo + hi) / 2)%nat in
        if Qltb x (inject_Z (nth mid a 0))
        then bisect_loop fuel' a x lo mid
        else bisect_loop fuel' a x (mid + 1)%nat hi
      else lo
  end.

Definition bisect (a : list Z) (x : Q) (lo hi : nat) : nat :=
  bisect_loop (hi - lo) a x lo hi.

Definition choices {A} (population : list A) (weights : list Z) (rnd : Q)
  : outcome A :=
  let cum_weights := accumulate 0 weights in
  let n := List.length population in
  if negb (List.length cum_weights =? n)%nat
  then Raise (ValueError "The number of weights does not match the population")
  else
    match cum_weights with
    | [] => Raise IndexError
    | _ =>
        let total := last cum_weights 0 in
        if total <=? 0
        then Raise (ValueError "Total of weights must be greater than zero")
        else
          let hi := (n - 1)%nat in
          match nth_error population
                          (bisect cum_weights (rnd * inject_Z total)%Q 0 hi) with
          | Some x => Return x
          | None => Raise IndexError
          end
    end.

(** ** [DistributionService] ([app/services/distribution_service.py]) *)

Module DistributionService.

(** The loop of [get_available_operators] over the weight rows of the
    source.  [weight_config.operator] is [None] when no operator row has
    the key, and [None.is_active] raises. *)
Fixpoint available_loop (db : Db) (weights : list OperatorSourceWeight.t)
  : outcome (list (Operator.t * Z)) :=
  match weights with
  | [] => Return []
  | weight_config :: rest =>
      match query_operator db (OperatorSourceWeight.operator_id weight_config) with
      | None => Raise AttributeError
      | Some operator =>
          if negb (Operator.is_active operator) then available_loop db rest
          else if Operator.max_load operator <=? get_current_load db operator
               then available_loop db rest
               else
                 match available_loop db rest with
                 | Return l =>
                     Return ((operator, OperatorSourceWeight.weight weight_config) :: l)
                 | Raise e => Raise e
                 end
      end
  end.

Definition get_available_operators (db : Db) (source_id : Z)
  : outcome (list (Operator.t * Z)) :=
  available_loop db (query_weights db source_id).

Definition select_operator_weighted
           (available_operators : list (Operator.t * Z)) (rnd : Q)
  : outcome (option Operator.t) :=
  match available_operators with
  | [] => Return None
  | _ =>
      let operators := map fst available_operators in
      let weights := map snd available_operators in
      match choices operators weights rnd with
      | Return selected => Return (Some selected)
      | Raise e => Raise e
      end
  end.

Definition assign_operator_to_request (db : Db) (source_id : Z) (rnd : Q)
  : outcome (option Operator.t) :=
  match get_available_operators db source_id with
  | Raise e => Raise e
  | Return available_operators =>
      match available_operators with
      | [] => Return None
      | _ => select_operator_weighted available_operators rnd
      end
  end.

(** Every attribute access on [operator] is guarded by [if operator], so
    the function has no raising path. *)
Definition get_operator_statistics (db : Db) (operator_id source_id : Z)
  : OperatorStatistics.t :=
  let total_requests :=
    Z.of_nat (List.length
                (filter (fun r => opt_eqb (Request.operator_id r) operator_id
                                  && (Request.source_id r =? source_id))
                        (requests db))) in
  let operator := query_operator db operator_id in
  let current_load :=
    match operator with Some o => get_current_load db o | None => 0 end in
  OperatorStatistics.mk
    operator_id
    (match operator with Some o => Operator.name o | None => "Unknown" end)
    total_requests
    current_load
    (match operator with Some o => Operator.max_load o | None => 0 end).

End DistributionService.

(** ** [app/api/requests.py] *)

Definition operator_name_of (db : Db) (operator_id : option Z) : option string :=
  match operator_id with
  | None => None
  | Some k => option_map Operator.name (query_operator db k)
  end.

(** [create_request], first half: find or create the lead, check the source,
    let the distribution service choose an operator. *)
Definition create_request_assign (request_data : RequestCreate.t) (rnd : Q)
  : M (Lead.t * option Operator.t) :=
  found <- query (fun db =>
             query_lead_by_external_id db (RequestCreate.lead_external_id request_data));;
  lead <- match found with
          | Some l => ret l
          | None => add_lead (RequestCreate.lead_external_id request_data)
                             (RequestCreate.lead_name request_data)
                             (RequestCreate.lead_email request_data)
                             (RequestCreate.lead_phone request_data)
          end;;
  source <- query (fun db => query_source db (RequestCreate.source_id request_data));;
  match source with
  | None => raise (HTTPException 404 "Source not found")
  | Some _ =>
      assigned_operator <-
        lift (fun db => DistributionService.assign_operator_to_request
                          db (RequestCreate.source_id request_data) rnd);;
      ret (lead, assigned_operator)
  end.

(** [create_request], second half: insert the request with status "active",
    commit, answer. *)
Definition create_request_store (request_data : RequestCreate.t)
           (chosen : Lead.t * option Operator.t) : M RequestResponse.t :=
  let (lead, assigned_operator) := chosen in
  db_request <- add_request (Lead.id lead)
                            (RequestCreate.source_id request_data)
                            (option_map Operator.id assigned_operator)
                            (RequestCreate.message request_data)
                            "active";;
  commit;;;
  ret (RequestResponse.mk
         (Request.id db_request) (Request.lead_id db_request)
         (Request.source_id db_request) (Request.operator_id db_request)
         (option_map Operator.name assigned_operator)
         (Request.status db_request) (Request.message db_request)).

Definition create_request (request_data : RequestCreate.t) (rnd : Q)
  : M RequestResponse.t :=
  chosen <- create_request_assign request_data rnd;;
  create_request_store request_data chosen.

Definition update_request_status (request_id : Z) (status : string)
  : M RequestResponse.t :=
  found <- query (fun db => query_request db request_id);;
  match found with
  | None => raise (HTTPException 404 "Request not found")
  | Some request =>
      execute (UpdateRequestStatus (Request.id request) status);;;
      commit;;;
      name <- query (fun db => operator_name_of db (Request.operator_id request));;
      ret (RequestResponse.mk
             (Request.id request) (Request.lead_id request)
             (Request.source_id request) (Request.operator_id request)
             name status (Request.message request))
  end.

(** ** [app/api/sources.py] *)

Definition operator_not_found (operator_id : Z) : string :=
  "Operator with ID " ++ NilZero.string_of_int (Z.to_int operator_id) ++ " not found".

(** The [for weight_data in weights] loop of [configure_source_weights]. *)
Fixpoint configure_loop (source_id : Z) (weights : list OperatorSourceWeightCreate.t)
  : M (list OperatorSourceWeight.t) :=
  match weights with
  | [] => ret []
  | weight_data :: rest =>
      operator <- query (fun db =>
                    query_operator db (OperatorSourceWeightCreate.operator_id weight_data));;
      match operator with
      | None =>
          raise (HTTPException 404
                   (operator_not_found (OperatorSourceWeightCreate.operator_id weight_data)))
      | Some _ =>
          if OperatorSourceWeightCreate.weight weight_data <=? 0
          then raise (HTTPException 400 "Weight must be a positive integer")
          else
            db_weight <- add_weight (OperatorSourceWeightCreate.operator_id weight_data)
                                    source_id
                                    (OperatorSourceWeightCreate.weight weight_data);;
            created <- configure_loop source_id rest;;
            ret (db_weight :: created)
      end
  end.

(** The loop that builds the response; [weight.operator.name] raises when the
    relationship is [None]. *)
Fixpoint weight_responses (created_weights : list OperatorSourceWeight.t)
  : M (list OperatorSourceWeightResponse.t) :=
  match created_weights with
  | [] => ret []
  | weight :: rest =>
      operator <- query (fun db =>
                    query_operator db (OperatorSourceWeight.operator_id weight));;
      match operator with
      | None => raise AttributeError
      | Some o =>
          result <- weight_responses rest;;
          ret (OperatorSourceWeightResponse.mk
                 (OperatorSourceWeight.id weight)
                 (OperatorSourceWeight.operator_id weight)
                 (OperatorSourceWeight.source_id weight)
                 (OperatorSourceWeight.weight weight)
                 (Operator.name o) :: result)
      end
  end.

Definition configure_source_weights (source_id : Z)
           (weights : list OperatorSourceWeightCreate.t)
  : M (list OperatorSourceWeightResponse.t) :=
  source <- query (fun db => query_source db source_id);;
  match source with
  | None => raise (HTTPException 404 "Source not found")
  | Some _ =>
      execute (DeleteWeights source_id);;;
      created_weights <- configure_loop source_id weights;;
      commit;;;
      weight_responses created_weights
  end.

(** * The other handlers *)

(** ** More request and response bodies ([app/schemas/schemas.py]) *)

Module OperatorCreate.
Record t : Type := mk { name : string; is_active : bool; max_load : Z }.
End OperatorCreate.

Module OperatorUpdate.
Record t : Type := mk
  { name : option string; is_active : option bool; max_load : option Z }.
End OperatorUpdate.

Module OperatorResponse.
Record t : Type := mk
  { id : Z; name : string; is_active : bool; max_load : Z; current_load : Z }.
End OperatorResponse.

Module SourceCreate.
Record t : Type := mk { name : string; description : option string }.
End SourceCreate.

(** One value of the [operator_stats] dictionary of
    [get_distribution_statistics]. *)
Module OperatorCount.
Record t : Type := mk
  { operator_id : Z; operator_name : string; request_count : Z }.
End OperatorCount.

Module DistributionStats.
Record t : Type := mk
  { source_id : Z; source_name : string; total_requests : Z;
    operators : list OperatorCount.t }.
End DistributionStats.

Module LeadWithRequestsResponse.
Record t : Type := mk { lead : Lead.t; requests : list RequestResponse.t }.
End LeadWithRequestsResponse.

(** ** Reading handlers of [app/api/requests.py] *)

(** The [RequestResponse] built from a row; [req.operator.name if
    req.operator else None] is [operator_name_of]. *)
Definition request_response (db : Db) (req : Request.t) : RequestResponse.t :=
  RequestResponse.mk
    (Request.id req) (Request.lead_id req) (Request.source_id req)
    (Request.operator_id req)
    (operator_name_of db (Request.operator_id req))
    (Request.status req) (Request.message req).

Definition get_request (request_id : Z) : M RequestResponse.t :=
  found <- query (fun db => query_request db request_id);;
  match found with
  | None => raise (HTTPException 404 "Request not found")
  | Some request => query (fun db => request_response db request)
  end.

(** [if source_id:] and [if operator_id:] test the truth of the parameter:
    a filter is applied for an integer other than 0, and neither for [None]
    nor for 0. *)
Definition truthy (parameter : option Z) : bool :=
  match parameter with
  | Some k => negb (k =? 0)
  | None => false
  end.

Definition list_requests_query (db : Db) (source_id operator_id : option Z)
  : list Request.t :=
  let query0 := requests db in
  let query1 :=
    if truthy source_id
    then filter (fun r => opt_eqb source_id (Request.source_id r)) query0
    else query0 in
  if truthy operator_id
  then filter (fun r => match operator_id with
                        | Some k => opt_eqb (Request.operator_id r) k
                        | None => false
                        end) query1
  else query1.

Definition list_requests (source_id operator_id : option Z)
  : M (list RequestResponse.t) :=
  query (fun db => map (request_response db)
                       (list_requests_query db source_id operator_id)).

(** [lead.requests]: the request rows that hold the lead's key. *)
Definition lead_requests (db : Db) (lead : Lead.t) : list Request.t :=
  filter (fun r => Request.lead_id r =? Lead.id lead) (requests db).

Definition list_leads_with_requests : M (list LeadWithRequestsResponse.t) :=
  query (fun db =>
           map (fun lead =>
                  LeadWithRequestsResponse.mk
                    lead (map (request_response db) (lead_requests db lead)))
               (leads db)).

(** The dictionary [operator_stats], as its entries in insertion order. *)
Definition has_key (k : Z) (operator_stats : list OperatorCount.t) : bool :=
  existsb (fun entry => OperatorCount.operator_id entry =? k) operator_stats.

Definition increment (k : Z) (operator_stats : list OperatorCount.t)
  : list OperatorCount.t :=
  map (fun entry =>
         if OperatorCount.operator_id entry =? k
         then OperatorCount.mk (OperatorCount.operator_id entry)
                               (OperatorCount.operator_name entry)
                               (OperatorCount.request_count entry + 1)
         else entry)
      operator_stats.

(** The [for req in requests] loop of [get_distribution_statistics];
    [req.operator.name] raises when the operator row is missing. *)
Fixpoint count_loop (db : Db) (source_requests : list Request.t)
         (operator_stats : list OperatorCount.t)
  : outcome (list OperatorCount.t) :=
  match source_requests with
  | [] => Return operator_stats
  | req :: rest =>
      if truthy (Request.operator_id req)
      then
        match Request.operator_id req with
        | None => count_loop db rest operator_stats
        | Some k =>
            if has_key k operator_stats
            then count_loop db rest (increment k operator_stats)
            else
              match query_operator db k with
              | None => Raise AttributeError
              | Some op =>
                  count_loop db rest
                    (increment k (operator_stats
                                    ++ [OperatorCount.mk k (Operator.name op) 0]))
              end
        end
      else count_loop db rest operator_stats
  end.

Definition source_requests (db : Db) (source : Source.t) : list Request.t :=
  filter (fun r => Request.source_id r =? Source.id source) (requests db).

Fixpoint statistics_loop (db : Db) (all_sources : list Source.t)
  : outcome (list DistributionStats.t) :=
  match all_sources with
  | [] => Return []
  | source :: rest =>
      match count_loop db (source_requests db source) [] with
      | Raise e => Raise e
      | Return operator_stats =>
          match statistics_loop db rest with
          | Raise e => Raise e
          | Return result =>
              Return (DistributionStats.mk
                        (Source.id source) (Source.name source)
                        (Z.of_nat (List.length (source_requests db source)))
                        operator_stats :: result)
          end
      end
  end.

Definition get_distribution_statistics : M (list DistributionStats.t) :=
  lift (fun db => statistics_loop db (sources db)).

(** ** Reading handlers of [app/api/sources.py] and [app/api/operators.py] *)

Definition get_source (source_id : Z) : M Source.t :=
  source <- query (fun db => query_source db source_id);;
  match source with
  | None => raise (HTTPException 404 "Source not found")
  | Some s => ret s
  end.

Definition list_sources : M (list Source.t) := query sources.

Definition get_source_weights (source_id : Z)
  : M (list OperatorSourceWeightResponse.t) :=
  source <- query (fun db => query_source db source_id);;
  match source with
  | None => raise (HTTPException 404 "Source not found")
  | Some _ =>
      weights <- query (fun db => query_weights db source_id);;
      weight_responses weights
  end.

Definition operator_response (db : Db) (op : Operator.t) : OperatorResponse.t :=
  OperatorResponse.mk
    (Operator.id op) (Operator.name op) (Operator.is_active op)
    (Operator.max_load op) (get_current_load db op).

Definition get_operator (operator_id : Z) : M OperatorResponse.t :=
  operator <- query (fun db => query_operator db operator_id);;
  match operator with
  | None => raise (HTTPException 404 "Operator not found")
  | Some op => query (fun db => operator_response db op)
  end.

Definition list_operators : M (list OperatorResponse.t) :=
  query (fun db => map (operator_response db) (operators db)).

(** ** Writing handlers of [app/api/operators.py] and [app/api/sources.py]

    These handlers write the [operators] and [sources] tables.  They run in
    a session of the same kind: statements pending until [db.commit()]. *)

Module Admin.

Inductive statement : Type :=
| InsertOperator (row : Operator.t)
| UpdateOperator (row : Operator.t)    (* UPDATE operators ... WHERE id = row.id *)
| InsertSource (row : Source.t).

Definition replace_operator (row : Operator.t) (o : Operator.t) : Operator.t :=
  if Operator.id o =? Operator.id row then row else o.

Definition apply_statement (db : Db) (st : statement) : Db :=
  match st with
  | InsertOperator row =>
      mkDb (operators db ++ [row]) (leads db) (sources db)
           (operator_source_weights db) (requests db)
  | UpdateOperator row =>
      mkDb (map (replace_operator row) (operators db)) (leads db) (sources db)
           (operator_source_weights db) (requests db)
  | InsertSource row =>
      mkDb (operators db) (leads db) (sources db ++ [row])
           (operator_source_weights db) (requests db)
  end.

Record Session : Type := mkSession
  { store : Db; pending : list statement }.

Definition view (s : Session) : Db :=
  fold_left apply_statement (pending s) (store s).

Definition M (A : Type) : Type := Session -> outcome A * Session.

Definition ret {A} (a : A) : M A := fun s => (Return a, s).

Definition bind {A B} (m : M A) (k : A -> M B) : M B :=
  fun s => match m s with
           | (Return a, s') => k a s'
           | (Raise e, s') => (Raise e, s')
           end.

Definition raise {A} (e : exn) : M A := fun s => (Raise e, s).

Definition query {A} (q : Db -> A) : M A := fun s => (Return (q (view s)), s).

Definition execute (st : statement) : M unit :=
  fun s => (Return tt, mkSession (store s) (pending s ++ [st])).

Definition commit : M unit :=
  fun s => (Return tt, mkSession (view s) []).

Definition call {A} (m : M A) (db : Db) : outcome A * Db :=
  let (o, s) := m (mkSession db []) in (o, store s).

Definition create_operator (operator : OperatorCreate.t) : M OperatorResponse.t :=
  bind (query (fun db => map Operator.id (operators db))) (fun ids =>
  let db_operator := Operator.mk (next_id ids)
                                 (OperatorCreate.name operator)
                                 (OperatorCreate.is_active operator)
                                 (OperatorCreate.max_load operator) in
  bind (execute (InsertOperator db_operator)) (fun _ =>
  bind commit (fun _ =>
  query (fun db => operator_response db db_operator)))).

Definition or_else {A} (o : option A) (a : A) : A :=
  match o with Some x => x | None => a end.

Definition update_operator (operator_id : Z) (operator_update : OperatorUpdate.t)
  : M OperatorResponse.t :=
  bind (query (fun db => query_operator db operator_id)) (fun found =>
  match found with
  | None => raise (HTTPException 404 "Operator not found")
  | Some operator =>
      let updated :=
        Operator.mk (Operator.id operator)
                    (or_else (OperatorUpdate.name operator_update)
                             (Operator.name operator))
                    (or_else (OperatorUpdate.is_active operator_update)
                             (Operator.is_active operator))
                    (or_else (OperatorUpdate.max_load operator_update)
                             (Operator.max_load operator)) in
      bind (execute (UpdateOperator updated)) (fun _ =>
      bind commit (fun _ =>
      query (fun db => operator_response db updated)))
  end).

Definition create_source (source : SourceCreate.t) : M Source.t :=
  bind (query (fun db =>
                 find (fun s => String.eqb (Source.name s) (SourceCreate.name source))
                      (sources db))) (fun db_source =>
  match db_source with
  | Some _ => raise (HTTPException 400 "Source with this name already exists")
  | None =>
      bind (query (fun db => map Source.id (sources db))) (fun ids =>
      let row := Source.mk (next_id ids)
                           (SourceCreate.name source)
                           (SourceCreate.description source) in
      bind (execute (InsertSource row)) (fun _ =>
      bind commit (fun _ => ret row)))
  end).

End Admin.

(** * Vocabulary of the properties *)

Definition sum_weights (ws : list Z) : Z := fold_right Z.add 0 ws.

(** The total weight of the candidates listed before position [i]. *)
Definition prefix_weight {A} (candidates : list (A * Z)) (i : nat) : Z :=
  sum_weights (firstn i (map snd candidates)).

Definition total_weight {A} (candidates : list (A * Z)) : Z :=
  sum_weights (map snd candidates).

Definition positive_weights {A} (candidates : list (A * Z)) : Prop :=
  forall p, In p candidates -> 0 < snd p.

(** The draw as the service sees it: the position that [random.choices]
    computes for the candidates' weights. *)
Definition drawn_index (candidates : list (Operator.t * Z)) (rnd : Q) : nat :=
  bisect (accumulate 0 (map snd candidates))
         (rnd * inject_Z (total_weight candidates))%Q
         0 (List.length candidates - 1).

(** The cumulative weight at position [i]: the weights up to and including
    the candidate at [i]. *)
Definition cumulative_weight (candidates : list (Operator.t * Z)) (i : nat) : Z :=
  prefix_weight candidates (S i).

(** The integer draws [0, 1, ..., total - 1]. *)
Definition draws (total : Z) : list Z := map Z.of_nat (seq 0 (Z.to_nat total)).

(** The value of [random()] that lands on the integer [r] once scaled by
    [total]. *)
Definition draw_of (r total : Z) : Q := r # Z.to_pos total.

(** The weight rows point at operators that exist: the foreign key
    [operator_source_weights.operator_id -> operators.id]. *)
Definition weights_reference_operators (db : Db) : Prop :=
  forall row, In row (operator_source_weights db) ->
              query_operator db (OperatorSourceWeight.operator_id row) <> None.

(** The stored weights are positive, as [configure_source_weights] writes
    them. *)
Definition stored_weights_positive (db : Db) : Prop :=
  forall row, In row (operator_source_weights db) ->
              0 < OperatorSourceWeight.weight row.

Definition db_consistent (db : Db) : Prop :=
  weights_reference_operators db /\ stored_weights_positive db.

(** A weight row is eligible when its operator is active and below its
    maximum load. *)
Definition eligible (db : Db) (row : OperatorSourceWeight.t) : bool :=
  match query_operator db (OperatorSourceWeight.operator_id row) with
  | Some op => Operator.is_active op
               && (get_current_load db op <? Operator.max_load op)
  | None => false
  end.

Definition candidate_of (db : Db) (row : OperatorSourceWeight.t)
  : list (Operator.t * Z) :=
  match query_operator db (OperatorSourceWeight.operator_id row) with
  | Some op => [(op, OperatorSourceWeight.weight row)]
  | None => []
  end.

(** The filter in the words of its contract: the [(operator, weight)] pairs
    of the source's eligible rows, in row order. *)
Definition capacity_filter_spec (db : Db) (source_id : Z)
  : list (Operator.t * Z) :=
  flat_map (candidate_of db) (filter (eligible db) (query_weights db source_id)).

(** The lead that [create_request] works with, and the statement it leaves
    pending when the lead is new. *)
Definition lead_for (db : Db) (request_data : RequestCreate.t) : Lead.t :=
  match query_lead_by_external_id db (RequestCreate.lead_external_id request_data) with
  | Some l => l
  | None => Lead.mk (next_id (map Lead.id (leads db)))
                    (RequestCreate.lead_external_id request_data)
                    (RequestCreate.lead_name request_data)
                    (RequestCreate.lead_email request_data)
                    (RequestCreate.lead_phone request_data)
  end.

Definition lead_writes (db : Db) (request_data : RequestCreate.t) : list write :=
  match query_lead_by_external_id db (RequestCreate.lead_external_id request_data) with
  | Some _ => []
  | None => [InsertLead (lead_for db request_data)]
  end.

(** The request row that [create_request] inserts for a chosen operator. *)
Definition request_row (db : Db) (request_data : RequestCreate.t)
           (assigned_operator : option Operator.t) : Request.t :=
  Request.mk (next_id (map Request.id (requests db)))
             (Lead.id (lead_for db request_data))
             (RequestCreate.source_id request_data)
             (option_map Operator.id assigned_operator)
             "active"
             (RequestCreate.message request_data).

Definition response_of (row : Request.t) (assigned_operator : option Operator.t)
  : RequestResponse.t :=
  RequestResponse.mk
    (Request.id row) (Request.lead_id row) (Request.source_id row)
    (Request.operator_id row) (option_map Operator.name assigned_operator)
    (Request.status row) (Request.message row).

(** The committed database after a [create_request] that chose
    [assigned_operator]. *)
Definition after_create_request (db : Db) (request_data : RequestCreate.t)
           (assigned_operator : option Operator.t) : Db :=
  apply_write (view (mkSession db (lead_writes db request_data)))
              (InsertRequest (request_row db request_data assigned_operator)).

(** No operator has more active requests than its maximum load. *)
Definition capacity_invariant (db : Db) : Prop :=
  forall op, In op (operators db) ->
             get_current_load db op <= Operator.max_load op.

(** [operators.id] is a primary key. *)
Definition operators_keyed (db : Db) : Prop :=
  NoDup (map Operator.id (operators db)).

(** Two [create_request] calls whose sessions overlap: both run their first
    half (the capacity filter and the draw) before either runs its second
    half (the insert and the commit).  Each session keeps its own pending
    statements and commits them onto the database as it then stands. *)
Definition overlapped_create_requests
           (db : Db) (request1 request2 : RequestCreate.t) (rnd1 rnd2 : Q) : Db :=
  let (o1, s1) := create_request_assign request1 rnd1 (open_session db) in
  let (o2, s2) := create_request_assign request2 rnd2 (open_session (store s1)) in
  let db1 :=
    match o1 with
    | Return chosen =>
        store (snd (create_request_store request1 chosen (on_store s1 (store s2))))
    | Raise _ => store s2
    end in
  match o2 with
  | Return chosen =>
      store (snd (create_request_store request2 chosen (on_store s2 db1)))
  | Raise _ => db1
  end.

Definition stored_pair (row : OperatorSourceWeight.t) : Z * Z :=
  (OperatorSourceWeight.operator_id row, OperatorSourceWeight.weight row).

Definition submitted_pair (weight_data : OperatorSourceWeightCreate.t) : Z * Z :=
  (OperatorSourceWeightCreate.operator_id weight_data,
   OperatorSourceWeightCreate.weight weight_data).

(** The two ways a call of [configure_source_weights] ends. *)
Inductive configured (db : Db) (source_id : Z)
          (weights : list OperatorSourceWeightCreate.t)
  : outcome (list OperatorSourceWeightResponse.t) * Db -> Prop :=
| configure_rejected (e : exn) :
    (e = HTTPException 404 "Source not found" /\ query_source db source_id = None)
    \/ (query_source db source_id <> None
        /\ exists wd,
            In wd weights
            /\ ((e = HTTPException 404
                       (operator_not_found (OperatorSourceWeightCreate.operator_id wd))
                 /\ query_operator db (OperatorSourceWeightCreate.operator_id wd) = None)
                \/ (e = HTTPException 400 "Weight must be a positive integer"
                    /\ OperatorSourceWeightCreate.weight wd <= 0))) ->
    configured db source_id weights (Raise e, db)
| configure_stored (result : list OperatorSourceWeightResponse.t)
                   (created : list OperatorSourceWeight.t) (db' : Db) :
    query_source db source_id <> None ->
    map stored_pair created = map submitted_pair weights ->
    Forall (fun row => OperatorSourceWeight.source_id row = source_id) created ->
    Forall (fun wd =>
              0 < OperatorSourceWeightCreate.weight wd
              /\ query_operator db (OperatorSourceWeightCreate.operator_id wd) <> None)
           weights ->
    operators db' = operators db ->
    leads db' = leads db ->
    sources db' = sources db ->
    requests db' = requests db ->
    operator_source_weights db'
    = (filter (fun w => negb (OperatorSourceWeight.source_id w =? source_id))
              (operator_source_weights db) ++ created)%list ->
    configured db source_id weights (Return result, db').

Definition weight_key (row : OperatorSourceWeight.t) : Z * Z :=
  (OperatorSourceWeight.source_id row, OperatorSourceWeight.operator_id row).

(** At most one weight row per (source, operator). *)
Definition unique_pairs (db : Db) : Prop :=
  NoDup (map weight_key (operator_source_weights db)).

(** A sequence of reconfigurations, each a source and the submitted list. *)
Definition reconfigure (db : Db)
           (c : Z * list OperatorSourceWeightCreate.t) : Db :=
  snd (call (configure_source_weights (fst c) (snd c)) db).

Definition reconfigure_all
           (calls : list (Z * list OperatorSourceWeightCreate.t)) (db : Db) : Db :=
  fold_left reconfigure calls db.

Definition status_response (db : Db) (request : Request.t) (status : string)
  : RequestResponse.t :=
  RequestResponse.mk
    (Request.id request) (Request.lead_id request) (Request.source_id request)
    (Request.operator_id request)
    (operator_name_of db (Request.operator_id request))
    status (Request.message request).

Definition alice : Operator.t := Operator.mk 1 "Alice" true 1.
Definition bob : Operator.t := Operator.mk 2 "Bob" true 2.

Definition lead1 : Lead.t := Lead.mk 1 "lead-1" None None None.
Definition bot : Source.t := Source.mk 1 "bot" None.

(** Two operators configured for one source with weights 1 and 3, no
    request yet. *)
Definition example_db : Db :=
  mkDb [alice; bob] [lead1] [bot]
       [OperatorSourceWeight.mk 1 1 1 1; OperatorSourceWeight.mk 2 2 1 3]
       [].

(** One operator with room for a single request. *)
Definition race_db : Db :=
  mkDb [alice] [lead1] [bot] [OperatorSourceWeight.mk 1 1 1 1] [].

(** The same operator, holding its single request. *)
Definition full_db : Db :=
  mkDb [alice] [lead1] [bot] [OperatorSourceWeight.mk 1 1 1 1]
       [Request.mk 1 1 1 (Some 1) "active" None].

(** A weight row with weight 0, as a direct insert could leave it. *)
Definition zero_weight_db : Db :=
  mkDb [alice] [lead1] [bot] [OperatorSourceWeight.mk 1 1 1 0] [].

Definition example_request : RequestCreate.t :=
  RequestCreate.mk "lead-1" 1 None None None None.

Definition example_candidates : list (Operator.t * Z) := [(alice, 1); (bob, 3)].

(** A request counts for operator [k] in the statistics when its
    [operator_id] is [k] and is not 0 ([if req.operator_id:]). *)
Definition counts_for (k : Z) (r : Request.t) : bool :=
  truthy (Request.operator_id r) && opt_eqb (Request.operator_id r) k.

(** The count that a dictionary of statistics holds for operator [k]. *)
Definition count_of (k : Z) (operator_stats : list OperatorCount.t) : Z :=
  fold_right (fun entry acc =>
                if OperatorCount.operator_id entry =? k
                then OperatorCount.request_count entry + acc
                else acc)
             0 operator_stats.

(** The foreign key [requests.operator_id -> operators.id]. *)
Definition requests_reference_operators (db : Db) : Prop :=
  forall r k, In r (requests db) -> Request.operator_id r = Some k ->
              query_operator db k <> None.

(** What one entry of the statistics says about the requests of its
    source. *)
Definition statistics_entry_sound (db : Db) (st : DistributionStats.t) : Prop :=
  let rows := filter (fun r => Request.source_id r =? DistributionStats.source_id st)
                     (requests db) in
  DistributionStats.total_requests st = Z.of_nat (List.length rows)
  /\ NoDup (map OperatorCount.operator_id (DistributionStats.operators st))
  /\ (forall entry,
         In entry (DistributionStats.operators st) ->
         0 < OperatorCount.request_count entry
         /\ OperatorCount.request_count entry
            = Z.of_nat (List.length
                          (filter (counts_for (OperatorCount.operator_id entry)) rows)))
  /\ (forall r k,
         In r rows -> Request.operator_id r = Some k -> k <> 0 ->
         In k (map OperatorCount.operator_id (DistributionStats.operators st))).

(** The operator row that [create_operator] inserts. *)
Definition new_operator (db : Db) (operator : OperatorCreate.t) : Operator.t :=
  Operator.mk (next_id (map Operator.id (operators db)))
              (OperatorCreate.name operator)
              (OperatorCreate.is_active operator)
              (OperatorCreate.max_load operator).

(** The operator row that [update_operator] writes over [operator]. *)
Definition updated_operator (operator : Operator.t)
           (operator_update : OperatorUpdate.t) : Operator.t :=
  Operator.mk (Operator.id operator)
              (Admin.or_else (OperatorUpdate.name operator_update)
                             (Operator.name operator))
              (Admin.or_else (OperatorUpdate.is_active operator_update)
                             (Operator.is_active operator))
              (Admin.or_else (OperatorUpdate.max_load operator_update)
                             (Operator.max_load operator)).

(** The source row that [create_source] inserts. *)
Definition new_source (db : Db) (source : SourceCreate.t) : Source.t :=
  Source.mk (next_id (map Source.id (sources db)))
            (SourceCreate.name source) (SourceCreate.description source).

Definition query_source_by_name (db : Db) (name : string) : option Source.t :=
  find (fun s => String.eqb (Source.name s) name) (sources db).

(** The foreign key [operator_source_weights.source_id -> sources.id]. *)
Definition weights_reference_sources (db : Db) : Prop :=
  forall row, In row (operator_source_weights db) ->
              query_source db (OperatorSourceWeight.source_id row) <> None.

(** The foreign key [requests.lead_id -> leads.id]. *)
Definition requests_reference_leads (db : Db) : Prop :=
  forall r, In r (requests db) ->
            exists lead, In lead (leads db) /\ Lead.id lead = Request.lead_id r.

(** * Properties *)

(** ** The weighted draw *)

Lemma Qltb_floor (x : Q) (c : Z) : Qltb x (inject_Z c) = (Qfloor x <? c).
Proof.
  unfold Qltb.
  destruct (Z.ltb_spec (Qfloor x) c) as [Hlt | Hge].
  - apply negb_true_iff. destruct (Qle_bool (inject_Z c) x) eqn:E; [| reflexivity].
    apply Qle_bool_iff in E. apply Qfloor_resp_le in E.
    rewrite Qfloor_Z in E. lia.
  - apply negb_false_iff. apply Qle_bool_iff.
    apply Qle_trans with (inject_Z (Qfloor x)).
    + rewrite <- Zle_Qle. exact Hge.
    + apply Qfloor_le.
Qed.

Section Bisect.

Variable a : list Z.
Variable x : Q.
Hypothesis a_sorted :
  forall j k, (j <= k < List.length a)%nat -> nth j a 0 <= nth k a 0.

(** The binary search returns the boundary between the entries that are at
    most the key and those that exceed it; with the fuel [hi - lo] it runs
    to the end of the loop. *)
Lemma bisect_loop_spec (fuel : nat) :
  forall lo hi : nat,
    (hi - lo <= fuel)%nat -> (lo <= hi)%nat -> (hi <= List.length a)%nat ->
    let p := bisect_loop fuel a x lo hi in
    (lo <= p <= hi)%nat
    /\ (forall j, (lo <= j < p)%nat -> nth j a 0 <= Qfloor x)
    /\ (forall j, (p <= j < hi)%nat -> Qfloor x < nth j a 0).
Proof.
  induction fuel as [| fuel IH]; intros lo hi Hfuel Hle Hlen; cbn [bisect_loop].
  - repeat split; intros; lia.
  - destruct (Nat.ltb_spec lo hi) as [Hlt | Hge].
    2:{ repeat split; intros; lia. }
    assert (Hmid : (lo <= (lo + hi) / 2 < hi)%nat).
    { split.
      - apply Nat.div_le_lower_bound; lia.
      - apply Nat.Div0.div_lt_upper_bound; lia. }
    set (mid := ((lo + hi) / 2)%nat) in *.
    rewrite Qltb_floor.
    destruct (Z.ltb_spec (Qfloor x) (nth mid a 0)) as [Hx | Hx].
    + destruct (IH lo mid) as (Hp & Hbelow & Habove); try lia.
      repeat split; try lia; [exact Hbelow |].
      intros j Hj.
      destruct (Nat.lt_ge_cases j mid) as [Hjm | Hjm].
      * apply Habove; lia.
      * assert (nth mid a 0 <= nth j a 0) by (apply a_sorted; lia). lia.
    + destruct (IH (mid + 1)%nat hi) as (Hp & Hbelow & Habove); try lia.
      repeat split; try lia; [| exact Habove].
      intros j Hj.
      destruct (Nat.lt_ge_cases j (mid + 1)) as [Hjm | Hjm].
      * assert (nth j a 0 <= nth mid a 0) by (apply a_sorted; lia). lia.
      * apply Hbelow; lia.
Qed.

Lemma bisect_spec (lo hi : nat) :
  (lo <= hi)%nat -> (hi <= List.length a)%nat ->
  let p := bisect a x lo hi in
  (lo <= p <= hi)%nat
  /\ (forall j, (lo <= j < p)%nat -> nth j a 0 <= Qfloor x)
  /\ (forall j, (p <= j < hi)%nat -> Qfloor x < nth j a 0).
Proof. intros; apply bisect_loop_spec; lia. Qed.

End Bisect.

Lemma length_accumulate (ws : list Z) :
  forall acc, List.length (accumulate acc ws) = List.length ws.
Proof. induction ws as [| w ws IH]; intros acc; cbn; [| rewrite IH]; reflexivity. Qed.

Lemma nth_accumulate (ws : list Z) :
  forall acc i, (i < List.length ws)%nat ->
    nth i (accumulate acc ws) 0 = acc + sum_weights (firstn (S i) ws).
Proof.
  induction ws as [| w ws IH]; intros acc i Hi; cbn in Hi; [lia |].
  destruct i as [| i].
  - cbn. lia.
  - cbn [accumulate nth]. rewrite IH by lia.
    change (firstn (S (S i)) (w :: ws)) with (w :: firstn (S i) ws).
    unfold sum_weights. cbn [fold_right]. lia.
Qed.

Lemma last_accumulate (ws : list Z) :
  forall acc, ws <> [] -> last (accumulate acc ws) 0 = acc + sum_weights ws.
Proof.
  induction ws as [| w ws IH]; intros acc Hne; [congruence |].
  destruct ws as [| w' ws].
  - cbn. lia.
  - change (last (accumulate acc (w :: w' :: ws)) 0)
      with (last (accumulate (acc + w) (w' :: ws)) 0).
    rewrite IH by congruence. unfold sum_weights. cbn [fold_right]. lia.
Qed.

Lemma sum_weights_app (l1 l2 : list Z) :
  sum_weights (l1 ++ l2) = sum_weights l1 + sum_weights l2.
Proof. unfold sum_weights. induction l1 as [| w l1 IH]; cbn [fold_right app]; lia. Qed.

Lemma sum_weights_nonneg (ws : list Z) :
  (forall w, In w ws -> 0 < w) -> 0 <= sum_weights ws.
Proof.
  induction ws as [| w ws IH]; intros Hpos; [cbn; lia |].
  assert (0 < w) by (apply Hpos; now left).
  assert (0 <= sum_weights ws) by (apply IH; intros; apply Hpos; now right).
  unfold sum_weights in *. cbn [fold_right]. lia.
Qed.

Lemma In_firstn {A} (l : list A) (n : nat) (y : A) :
  In y (firstn n l) -> In y l.
Proof.
  revert n. induction l as [| h l IH]; intros [| n] H; cbn in H; try contradiction.
  destruct H as [-> | H]; [now left | right; eauto].
Qed.

Lemma sum_firstn_mono (ws : list Z) (j k : nat) :
  (forall w, In w ws -> 0 < w) -> (j <= k)%nat ->
  sum_weights (firstn j ws) <= sum_weights (firstn k ws).
Proof.
  intros Hpos. revert j k.
  induction ws as [| w ws IH]; intros j k Hjk.
  - rewrite !firstn_nil. lia.
  - destruct j as [| j].
    + change (sum_weights (firstn 0 (w :: ws))) with 0.
      apply sum_weights_nonneg. intros w' Hw'. apply Hpos.
      eapply In_firstn; eassumption.
    + destruct k as [| k]; [lia |]. cbn [firstn].
      assert (IH' : sum_weights (firstn j ws) <= sum_weights (firstn k ws)).
      { apply IH; [| lia]. intros w' Hw'. apply Hpos. now right. }
      unfold sum_weights in *. cbn [fold_right]. lia.
Qed.

Lemma sum_firstn_S (ws : list Z) (i : nat) (w : Z) :
  nth_error ws i = Some w ->
  sum_weights (firstn (S i) ws) = sum_weights (firstn i ws) + w.
Proof.
  revert i. induction ws as [| w0 ws IH]; intros [| i] Hi; cbn in Hi; try discriminate.
  - injection Hi as ->. cbn. lia.
  - change (firstn (S (S i)) (w0 :: ws)) with (w0 :: firstn (S i) ws).
    change (firstn (S i) (w0 :: ws)) with (w0 :: firstn i ws).
    specialize (IH i Hi). unfold sum_weights in *. cbn [fold_right]. lia.
Qed.

Lemma sum_firstn_all (ws : list Z) (n : nat) :
  (List.length ws <= n)%nat -> sum_weights (firstn n ws) = sum_weights ws.
Proof. intros H. now rewrite firstn_all2. Qed.

Lemma accumulate_sorted (ws : list Z) :
  (forall w, In w ws -> 0 < w) ->
  forall j k, (j <= k < List.length (accumulate 0 ws))%nat ->
              nth j (accumulate 0 ws) 0 <= nth k (accumulate 0 ws) 0.
Proof.
  intros Hpos j k Hjk. rewrite length_accumulate in Hjk.
  rewrite !nth_accumulate by lia.
  assert (sum_weights (firstn (S j) ws) <= sum_weights (firstn (S k) ws))
    by (apply sum_firstn_mono; [exact Hpos | lia]).
  lia.
Qed.

(** Every draw below the total falls in the interval of exactly one
    position. *)
Lemma interval_exists (ws : list Z) :
  (forall w, In w ws -> 0 < w) ->
  forall r, 0 <= r < sum_weights ws ->
    exists i w, nth_error ws i = Some w
                /\ sum_weights (firstn i ws) <= r < sum_weights (firstn i ws) + w.
Proof.
  induction ws as [| w0 ws IH]; intros Hpos r Hr; cbn in Hr; [lia |].
  destruct (Z_lt_ge_dec r w0) as [Hlt | Hge].
  - exists 0%nat, w0. cbn. split; [reflexivity | lia].
  - destruct (IH (fun w Hw => Hpos w (or_intror Hw)) (r - w0)) as (i & w & Hi & Hint).
    { unfold sum_weights in *. lia. }
    exists (S i), w. split; [exact Hi |].
    change (firstn (S i) (w0 :: ws)) with (w0 :: firstn i ws).
    unfold sum_weights in *. cbn [fold_right]. lia.
Qed.

Section Choices.

Context {A : Type}.
Variable population : list A.
Variable weights : list Z.
Hypothesis same_length : List.length weights = List.length population.
Hypothesis nonempty : population <> [].
Hypothesis positive : forall w, In w weights -> 0 < w.

Lemma weights_nonempty : weights <> [].
Proof.
  intros Hnil. pose proof same_length as Hlen. rewrite Hnil in Hlen.
  destruct population; [congruence | discriminate].
Qed.

Lemma total_positive : 0 < sum_weights weights.
Proof.
  pose proof weights_nonempty as Hne.
  destruct weights as [| w ws]; [congruence |].
  assert (0 < w) by (apply positive; now left).
  assert (0 <= sum_weights ws)
    by (apply sum_weights_nonneg; intros; apply positive; now right).
  unfold sum_weights in *. cbn [fold_right]. lia.
Qed.

(** With as many weights as candidates and a positive total, none of the
    checks of [choices] raises. *)
Lemma choices_unfold (rnd : Q) :
  choices population weights rnd =
  match nth_error population
          (bisect (accumulate 0 weights)
                  (rnd * inject_Z (sum_weights weights))%Q
                  0 (List.length population - 1)) with
  | Some y => Return y
  | None => Raise IndexError
  end.
Proof.
  unfold choices.
  rewrite length_accumulate, same_length, Nat.eqb_refl. cbn [negb].
  pose proof weights_nonempty as Hne.
  pose proof total_positive as Htot.
  rewrite (last_accumulate weights 0 Hne), Z.add_0_l.
  destruct (accumulate 0 weights) as [| c cum] eqn:Ecum.
  { apply (f_equal (@List.length Z)) in Ecum.
    rewrite length_accumulate in Ecum.
    destruct weights; [congruence | discriminate]. }
  destruct (Z.leb_spec (sum_weights weights) 0); [lia | reflexivity].
Qed.

Lemma bisect_in_range (rnd : Q) :
  (bisect (accumulate 0 weights) (rnd * inject_Z (sum_weights weights))%Q
          0 (List.length population - 1) < List.length population)%nat.
Proof.
  destruct (bisect_spec (accumulate 0 weights)
              (rnd * inject_Z (sum_weights weights))%Q
              (accumulate_sorted weights positive)
              0 (List.length population - 1)) as (Hp & _).
  - lia.
  - rewrite length_accumulate. lia.
  - destruct population; [congruence | cbn [List.length] in *; lia].
Qed.

Lemma choices_returns (rnd : Q) :
  exists y, choices population weights rnd = Return y /\ In y population.
Proof.
  rewrite choices_unfold.
  pose proof (bisect_in_range rnd) as Hlt.
  apply nth_error_Some in Hlt.
  destruct (nth_error population _) as [y |] eqn:E; [| congruence].
  exists y. split; [reflexivity |]. eapply nth_error_In; eassumption.
Qed.

(** The candidate at position [i] is returned for every draw that falls
    between the total weight before it and that total plus its weight. *)
Lemma choices_interval (rnd : Q) (i : nat) (y : A) (w : Z) :
  nth_error population i = Some y ->
  nth_error weights i = Some w ->
  sum_weights (firstn i weights)
    <= Qfloor (rnd * inject_Z (sum_weights weights))
    < sum_weights (firstn i weights) + w ->
  bisect (accumulate 0 weights) (rnd * inject_Z (sum_weights weights))%Q
         0 (List.length population - 1) = i
  /\ choices population weights rnd = Return y.
Proof.
  intros Hy Hw Hr.
  assert (Hi : (i < List.length population)%nat)
    by (apply nth_error_Some; congruence).
  rewrite choices_unfold.
  set (x := (rnd * inject_Z (sum_weights weights))%Q) in *.
  destruct (bisect_spec (accumulate 0 weights) x
              (accumulate_sorted weights positive)
              0 (List.length population - 1)) as (Hp & Hbelow & Habove).
  { lia. }
  { rewrite length_accumulate. lia. }
  set (p := bisect (accumulate 0 weights) x 0 (List.length population - 1)) in *.
  assert (Hpi : p = i).
  { destruct (Nat.lt_trichotomy i p) as [Hlt | [Heq | Hgt]]; [| now symmetry |].
    - specialize (Hbelow i ltac:(lia)).
      rewrite nth_accumulate in Hbelow by lia.
      rewrite (sum_firstn_S weights i w Hw) in Hbelow. lia.
    - destruct i as [| i']; [lia |].
      specialize (Habove i' ltac:(lia)).
      rewrite nth_accumulate in Habove by lia. lia. }
  rewrite Hpi, Hy. split; reflexivity.
Qed.

End Choices.

Lemma draw_of_floor (r total : Z) :
  0 < total -> Qfloor (draw_of r total * inject_Z total) = r.
Proof.
  intros Htot. unfold draw_of, Qfloor, Qmult, inject_Z. cbn [Qnum Qden].
  rewrite Pos.mul_1_r, Z2Pos.id by lia. apply Z.div_mul. lia.
Qed.

Lemma draw_of_unit (r total : Z) :
  0 <= r < total -> (0 <= draw_of r total /\ draw_of r total < 1)%Q.
Proof.
  intros Hr. unfold draw_of, Qle, Qlt. cbn [Qnum Qden].
  rewrite Z2Pos.id by lia. lia.
Qed.

(** Whatever [random()] returns in [[0, 1)], the scaled draw has an integer
    part in [[0, total)]. *)
Lemma scaled_draw_range (rnd : Q) (total : Z) :
  0 < total -> (0 <= rnd)%Q -> (rnd < 1)%Q ->
  0 <= Qfloor (rnd * inject_Z total) < total.
Proof.
  intros Htot H0 H1.
  assert (Ht : (0 < inject_Z total)%Q) by (rewrite <- (Zlt_Qlt 0); exact Htot).
  split.
  - rewrite <- (Qfloor_Z 0). apply Qfloor_resp_le.
    apply Qmult_le_0_compat; [exact H0 | apply Qlt_le_weak; exact Ht].
  - assert (Hlt : (rnd * inject_Z total < inject_Z total)%Q).
    { rewrite <- (Qmult_1_l (inject_Z total)) at 2.
      apply Qmult_lt_compat_r; assumption. }
    pose proof (Qfloor_le (rnd * inject_Z total)) as Hfl.
    rewrite Zlt_Qlt. eapply Qle_lt_trans; eassumption.
Qed.

Lemma count_interval_seq (lo w : Z) (n : nat) :
  0 <= lo -> 0 <= w ->
  List.length (filter (fun r => (lo <=? r) && (r <? lo + w))
                      (map Z.of_nat (seq 0 n)))
  = Z.to_nat (Z.max 0 (Z.min (Z.of_nat n) (lo + w) - lo)).
Proof.
  intros Hlo Hw. induction n as [| n IH].
  - cbn. lia.
  - rewrite seq_S, map_app, filter_app, length_app, IH. cbn [map filter Nat.add].
    destruct (Z.leb_spec lo (Z.of_nat n)), (Z.ltb_spec (Z.of_nat n) (lo + w));
      cbn [andb List.length]; lia.
Qed.

Lemma count_interval (lo w total : Z) :
  0 <= lo -> 0 <= w -> lo + w <= total ->
  List.length (filter (fun r => (lo <=? r) && (r <? lo + w)) (draws total))
  = Z.to_nat w.
Proof.
  intros Hlo Hw Htot. unfold draws. rewrite count_interval_seq by assumption. lia.
Qed.

Lemma In_draws (r total : Z) : In r (draws total) <-> 0 <= r < total.
Proof.
  unfold draws. rewrite in_map_iff. split.
  - intros (k & <- & Hk). apply in_seq in Hk. lia.
  - intros Hr. exists (Z.to_nat r). split; [lia |]. apply in_seq. lia.
Qed.

Section Candidates.

Import DistributionService.

Variable candidates : list (Operator.t * Z).
Hypothesis nonempty : candidates <> [].
Hypothesis positive : positive_weights candidates.

Let population := map fst candidates.
Let weights := map snd candidates.

Lemma candidates_same_length : List.length weights = List.length population.
Proof. unfold weights, population. now rewrite !length_map. Qed.

Lemma candidates_population : population <> [].
Proof. unfold population. destruct candidates; [congruence | discriminate]. Qed.

Lemma candidates_weights : forall w, In w weights -> 0 < w.
Proof.
  intros w Hw. apply in_map_iff in Hw as (p & <- & Hp). now apply positive.
Qed.

Lemma total_weight_positive : 0 < total_weight candidates.
Proof.
  exact (total_positive population weights candidates_same_length
           candidates_population candidates_weights).
Qed.

Lemma select_operator_weighted_choices (rnd : Q) :
  select_operator_weighted candidates rnd =
  match choices population weights rnd with
  | Return selected => Return (Some selected)
  | Raise e => Raise e
  end.
Proof. unfold select_operator_weighted. destruct candidates; [congruence | reflexivity]. Qed.

Lemma drawn_index_in_range (rnd : Q) :
  (drawn_index candidates rnd < List.length candidates)%nat.
Proof.
  pose proof (bisect_in_range population weights candidates_same_length
                candidates_population candidates_weights rnd) as H.
  unfold population, weights in H. rewrite length_map in H. exact H.
Qed.

Lemma select_at_drawn_index (rnd : Q) :
  select_operator_weighted candidates rnd =
  Return (option_map fst (nth_error candidates (drawn_index candidates rnd))).
Proof.
  rewrite select_operator_weighted_choices.
  rewrite (choices_unfold population weights candidates_same_length
             candidates_population candidates_weights).
  unfold population at 1 2, weights. rewrite length_map.
  fold (total_weight candidates). fold (drawn_index candidates rnd).
  rewrite nth_error_map.
  pose proof (drawn_index_in_range rnd) as Hlt.
  apply nth_error_Some in Hlt.
  destruct (nth_error candidates (drawn_index candidates rnd)); [reflexivity | congruence].
Qed.

Lemma drawn_index_interval (rnd : Q) (i : nat) (op : Operator.t) (w : Z) :
  nth_error candidates i = Some (op, w) ->
  prefix_weight candidates i
    <= Qfloor (rnd * inject_Z (total_weight candidates))
    < prefix_weight candidates i + w ->
  drawn_index candidates rnd = i.
Proof.
  intros Hi Hr.
  destruct (choices_interval population weights candidates_same_length
              candidates_population candidates_weights rnd i op w) as [Hidx _].
  - unfold population. rewrite nth_error_map, Hi. reflexivity.
  - unfold weights. rewrite nth_error_map, Hi. reflexivity.
  - exact Hr.
  - unfold population, weights in Hidx. rewrite length_map in Hidx. exact Hidx.
Qed.

Lemma drawn_index_bounds (rnd : Q) :
  0 <= Qfloor (rnd * inject_Z (total_weight candidates)) < total_weight candidates ->
  exists op w,
    nth_error candidates (drawn_index candidates rnd) = Some (op, w)
    /\ prefix_weight candidates (drawn_index candidates rnd)
       <= Qfloor (rnd * inject_Z (total_weight candidates))
       < prefix_weight candidates (drawn_index candidates rnd) + w.
Proof.
  intros Hr.
  destruct (interval_exists weights candidates_weights _ Hr) as (i & w & Hi & Hint).
  unfold weights in Hi. rewrite nth_error_map in Hi.
  destruct (nth_error candidates i) as [[op w'] |] eqn:E; [| discriminate].
  cbn in Hi. injection Hi as ->.
  rewrite (drawn_index_interval rnd i op w E Hint).
  exists op, w. split; [exact E | exact Hint].
Qed.

End Candidates.

Import DistributionService.

Lemma cumulative_weight_step (candidates : list (Operator.t * Z))
      (i : nat) (op : Operator.t) (w : Z) :
  nth_error candidates i = Some (op, w) ->
  cumulative_weight candidates i = prefix_weight candidates i + w.
Proof.
  intros Hi. unfold cumulative_weight, prefix_weight.
  apply sum_firstn_S. rewrite nth_error_map, Hi. reflexivity.
Qed.

Lemma prefix_weight_mono (candidates : list (Operator.t * Z)) (j k : nat) :
  positive_weights candidates -> (j <= k)%nat ->
  prefix_weight candidates j <= prefix_weight candidates k.
Proof.
  intros Hpos Hjk. unfold prefix_weight. apply sum_firstn_mono; [| exact Hjk].
  intros w Hw. apply in_map_iff in Hw as (p & <- & Hp). now apply Hpos.
Qed.

Lemma prefix_weight_total (candidates : list (Operator.t * Z)) (k : nat) :
  positive_weights candidates ->
  0 <= prefix_weight candidates k <= total_weight candidates.
Proof.
  intros Hpos. split.
  - change 0 with (prefix_weight candidates 0). apply prefix_weight_mono; [exact Hpos | lia].
  - destruct (Nat.le_ge_cases k (List.length candidates)) as [Hk | Hk].
    + replace (total_weight candidates)
        with (prefix_weight candidates (List.length candidates)).
      * now apply prefix_weight_mono.
      * unfold prefix_weight, total_weight. apply sum_firstn_all.
        now rewrite length_map.
    + unfold prefix_weight, total_weight. rewrite sum_firstn_all; [lia |].
      rewrite length_map. exact Hk.
Qed.


(** ** The capacity filter *)

Lemma available_loop_spec (db : Db) (rows : list OperatorSourceWeight.t) :
  (forall row, In row rows ->
               query_operator db (OperatorSourceWeight.operator_id row) <> None) ->
  available_loop db rows
  = Return (flat_map (candidate_of db) (filter (eligible db) rows)).
Proof.
  induction rows as [| row rows IH]; intros Hfk; [reflexivity |].
  assert (IH' := IH (fun r Hr => Hfk r (or_intror Hr))).
  specialize (Hfk row (or_introl eq_refl)).
  cbn [available_loop filter]. unfold eligible at 1.
  destruct (query_operator db (OperatorSourceWeight.operator_id row)) as [op |] eqn:Eop;
    [| congruence].
  destruct (Operator.is_active op); cbn [negb andb]; [| exact IH'].
  rewrite Z.leb_antisym.
  destruct (get_current_load db op <? Operator.max_load op); cbn [negb]; [| exact IH'].
  rewrite IH'. cbn [flat_map]. unfold candidate_of at 2. rewrite Eop. reflexivity.
Qed.

Lemma capacity_filter_spec_In (db : Db) (source_id : Z) (op : Operator.t) (w : Z) :
  In (op, w) (capacity_filter_spec db source_id)
  <-> exists row,
      In row (operator_source_weights db)
      /\ OperatorSourceWeight.source_id row = source_id
      /\ OperatorSourceWeight.weight row = w
      /\ query_operator db (OperatorSourceWeight.operator_id row) = Some op
      /\ Operator.is_active op = true
      /\ get_current_load db op < Operator.max_load op.
Proof.
  unfold capacity_filter_spec, query_weights. rewrite in_flat_map. split.
  - intros (row & Hrow & Hin).
    apply filter_In in Hrow as [Hrow Hel]. apply filter_In in Hrow as [Hrow Hsrc].
    unfold candidate_of in Hin. unfold eligible in Hel.
    destruct (query_operator db (OperatorSourceWeight.operator_id row)) as [op' |] eqn:Eop;
      [| contradiction].
    destruct Hin as [Heq | []]. injection Heq as -> <-.
    apply andb_true_iff in Hel as [Hact Hload].
    apply Z.eqb_eq in Hsrc. apply Z.ltb_lt in Hload.
    exists row. auto 7.
  - intros (row & Hrow & Hsrc & Hw & Hop & Hact & Hload).
    exists row. split.
    + apply filter_In. split.
      * apply filter_In. split; [exact Hrow | now apply Z.eqb_eq].
      * unfold eligible. rewrite Hop, Hact. now apply Z.ltb_lt.
    + unfold candidate_of. rewrite Hop, Hw. now left.
Qed.

Lemma get_available_operators_filter (db : Db) (source_id : Z) :
  weights_reference_operators db ->
  get_available_operators db source_id = Return (capacity_filter_spec db source_id).
Proof.
  intros Hfk. unfold get_available_operators. apply available_loop_spec.
  intros row Hrow. apply Hfk. unfold query_weights in Hrow.
  now apply filter_In in Hrow as [Hrow _].
Qed.

Lemma capacity_filter_spec_positive (db : Db) (source_id : Z) :
  stored_weights_positive db ->
  positive_weights (capacity_filter_spec db source_id).
Proof.
  intros Hpos [op w] Hin.
  apply capacity_filter_spec_In in Hin as (row & Hrow & _ & Hw & _).
  cbn [snd]. rewrite <- Hw. now apply Hpos.
Qed.


(** ** Handlers, one call at a time *)

(** The service reads the operators, the weight rows and the requests; two
    databases that agree on these three tables get the same answers. *)
Lemma get_current_load_requests (db1 db2 : Db) (op : Operator.t) :
  requests db1 = requests db2 -> get_current_load db1 op = get_current_load db2 op.
Proof. unfold get_current_load. now intros ->. Qed.

Lemma query_operator_operators (db1 db2 : Db) (k : Z) :
  operators db1 = operators db2 -> query_operator db1 k = query_operator db2 k.
Proof. unfold query_operator. now intros ->. Qed.

Lemma available_loop_tables (db1 db2 : Db) (rows : list OperatorSourceWeight.t) :
  operators db1 = operators db2 -> requests db1 = requests db2 ->
  available_loop db1 rows = available_loop db2 rows.
Proof.
  intros Hops Hreqs. induction rows as [| row rows IH]; [reflexivity |].
  cbn [available_loop]. rewrite IH, (query_operator_operators db1 db2 _ Hops).
  destruct (query_operator db2 _) as [op |]; [| reflexivity].
  now rewrite (get_current_load_requests db1 db2 op Hreqs).
Qed.

Lemma assign_operator_to_request_tables (db1 db2 : Db) (source_id : Z) (rnd : Q) :
  operators db1 = operators db2 ->
  operator_source_weights db1 = operator_source_weights db2 ->
  requests db1 = requests db2 ->
  assign_operator_to_request db1 source_id rnd
  = assign_operator_to_request db2 source_id rnd.
Proof.
  intros Hops Hws Hreqs.
  unfold assign_operator_to_request, get_available_operators, query_weights.
  now rewrite Hws, (available_loop_tables db1 db2 _ Hops Hreqs).
Qed.

Lemma create_request_assign_open (db : Db) (request_data : RequestCreate.t) (rnd : Q) :
  create_request_assign request_data rnd (open_session db)
  = (match query_source db (RequestCreate.source_id request_data) with
     | None => Raise (HTTPException 404 "Source not found")
     | Some _ =>
         match assign_operator_to_request
                 db (RequestCreate.source_id request_data) rnd with
         | Return a => Return (lead_for db request_data, a)
         | Raise e => Raise e
         end
     end,
     mkSession db (lead_writes db request_data)).
Proof.
  cbv beta iota zeta delta
      [create_request_assign lead_for lead_writes bind query lift ret raise
       add_lead execute open_session view pending store fold_left app].
  destruct (query_lead_by_external_id db _) as [l |];
    cbv beta iota zeta delta [pending store fold_left app];
    unfold query_source; cbn [apply_write sources];
    (destruct (find _ (sources db)); [| reflexivity]).
  - destruct (assign_operator_to_request db _ rnd); reflexivity.
  - match goal with
    | |- context [assign_operator_to_request (apply_write ?d ?w) ?s ?r] =>
        rewrite (assign_operator_to_request_tables (apply_write d w) db s r)
          by reflexivity
    end.
    destruct (assign_operator_to_request db _ rnd); reflexivity.
Qed.

Lemma view_pending_app (st : Db) (ws : list write) (w : write) :
  view (mkSession st (ws ++ [w])) = apply_write (view (mkSession st ws)) w.
Proof. unfold view. cbn [pending store]. now rewrite fold_left_app. Qed.

Lemma create_request_store_run (request_data : RequestCreate.t) (lead : Lead.t)
      (a : option Operator.t) (s : Session) :
  create_request_store request_data (lead, a) s
  = let row := Request.mk (next_id (map Request.id (requests (view s))))
                          (Lead.id lead)
                          (RequestCreate.source_id request_data)
                          (option_map Operator.id a)
                          "active"
                          (RequestCreate.message request_data) in
    (Return (response_of row a),
     mkSession (apply_write (view s) (InsertRequest row)) []).
Proof.
  destruct s as [st ws].
  cbv beta iota zeta delta
      [create_request_store bind query ret add_request execute commit response_of
       pending store].
  rewrite view_pending_app. reflexivity.
Qed.

Lemma lead_writes_tables (db : Db) (request_data : RequestCreate.t) :
  let db' := view (mkSession db (lead_writes db request_data)) in
  operators db' = operators db
  /\ sources db' = sources db
  /\ operator_source_weights db' = operator_source_weights db
  /\ requests db' = requests db.
Proof.
  unfold lead_writes, view.
  destruct (query_lead_by_external_id db _); cbn; auto.
Qed.

Lemma call_create_request (db : Db) (request_data : RequestCreate.t) (rnd : Q) :
  call (create_request request_data rnd) db
  = match query_source db (RequestCreate.source_id request_data) with
    | None => (Raise (HTTPException 404 "Source not found"), db)
    | Some _ =>
        match assign_operator_to_request
                db (RequestCreate.source_id request_data) rnd with
        | Raise e => (Raise e, db)
        | Return a =>
            (Return (response_of (request_row db request_data a) a),
             after_create_request db request_data a)
        end
    end.
Proof.
  unfold call, create_request, bind.
  rewrite create_request_assign_open.
  destruct (query_source db _); [| reflexivity].
  destruct (assign_operator_to_request db _ rnd) as [a | e]; [| reflexivity].
  rewrite create_request_store_run. cbv zeta. cbn [store].
  destruct (lead_writes_tables db request_data) as (_ & _ & _ & Hreq).
  rewrite Hreq. reflexivity.
Qed.

Lemma after_create_request_tables (db : Db) (request_data : RequestCreate.t)
      (a : option Operator.t) :
  let db' := after_create_request db request_data a in
  operators db' = operators db
  /\ sources db' = sources db
  /\ operator_source_weights db' = operator_source_weights db
  /\ requests db' = (requests db ++ [request_row db request_data a])%list.
Proof.
  destruct (lead_writes_tables db request_data) as (Ho & Hs & Hw & Hr).
  unfold after_create_request. cbn [apply_write operators sources
    operator_source_weights requests]. rewrite Hr. auto.
Qed.

(** ** Assignment *)

Lemma assign_operator_to_request_consistent (db : Db) (source_id : Z) (rnd : Q) :
  db_consistent db ->
  exists a,
    assign_operator_to_request db source_id rnd = Return a
    /\ (a = None <-> capacity_filter_spec db source_id = [])
    /\ (forall op, a = Some op ->
                   exists w, In (op, w) (capacity_filter_spec db source_id)).
Proof.
  intros [Hfk Hpos].
  pose proof (get_available_operators_filter db source_id Hfk) as Hav.
  pose proof (capacity_filter_spec_positive db source_id Hpos) as Hposc.
  unfold assign_operator_to_request. rewrite Hav.
  destruct (capacity_filter_spec db source_id) as [| c cs] eqn:E.
  - exists None. repeat split; congruence.
  - assert (Hne : c :: cs <> []) by discriminate.
    rewrite (select_at_drawn_index (c :: cs) Hne Hposc rnd).
    pose proof (drawn_index_in_range (c :: cs) Hne Hposc rnd) as Hlt.
    apply nth_error_Some in Hlt.
    destruct (nth_error (c :: cs) (drawn_index (c :: cs) rnd)) as [[op w] |] eqn:Ei;
      [| congruence].
    exists (Some op). cbn [option_map fst]. split; [reflexivity |]. split.
    + split; discriminate.
    + intros op' Heq. injection Heq as <-. exists w.
      eapply nth_error_In; eassumption.
Qed.

Lemma capacity_filter_spec_nil (db : Db) (source_id : Z) :
  capacity_filter_spec db source_id = []
  <-> forall row op,
      In row (operator_source_weights db) ->
      OperatorSourceWeight.source_id row = source_id ->
      query_operator db (OperatorSourceWeight.operator_id row) = Some op ->
      Operator.is_active op = false
      \/ Operator.max_load op <= get_current_load db op.
Proof.
  split.
  - intros Hnil row op Hrow Hsrc Hop.
    destruct (Operator.is_active op) eqn:Hact; [| now left]. right.
    destruct (Z_lt_ge_dec (get_current_load db op) (Operator.max_load op)) as [Hlt | Hge];
      [| lia].
    exfalso.
    assert (Hin : In (op, OperatorSourceWeight.weight row)
                     (capacity_filter_spec db source_id)).
    { apply capacity_filter_spec_In. exists row. auto 7. }
    rewrite Hnil in Hin. exact Hin.
  - intros Hall.
    destruct (capacity_filter_spec db source_id) as [| [op w] cs] eqn:E; [reflexivity |].
    assert (Hin : In (op, w) (capacity_filter_spec db source_id))
      by (rewrite E; now left).
    apply capacity_filter_spec_In in Hin as (row & Hrow & Hsrc & _ & Hop & Hact & Hload).
    destruct (Hall row op Hrow Hsrc Hop) as [Hoff | Hfull]; [congruence | lia].
Qed.


(** ** The capacity invariant *)

Lemma choices_In {A} (population : list A) (weights : list Z) (rnd : Q) (y : A) :
  choices population weights rnd = Return y -> In y population.
Proof.
  unfold choices.
  destruct (negb _); [discriminate |].
  destruct (accumulate 0 weights); [discriminate |].
  destruct (_ <=? 0); [discriminate |].
  destruct (nth_error population _) as [y' |] eqn:E; [| discriminate].
  intros H. injection H as <-. eapply nth_error_In; eassumption.
Qed.

Lemma available_loop_sound (db : Db) (rows : list OperatorSourceWeight.t) :
  forall l, available_loop db rows = Return l ->
    forall op w, In (op, w) l ->
      exists row, In row rows
                  /\ OperatorSourceWeight.weight row = w
                  /\ query_operator db (OperatorSourceWeight.operator_id row) = Some op
                  /\ Operator.is_active op = true
                  /\ get_current_load db op < Operator.max_load op.
Proof.
  induction rows as [| row rows IH]; intros l Hl op w Hin; cbn [available_loop] in Hl.
  - injection Hl as <-. contradiction.
  - assert (Hrest : forall l', available_loop db rows = Return l' -> In (op, w) l' ->
             exists row', In row' (row :: rows)
                  /\ OperatorSourceWeight.weight row' = w
                  /\ query_operator db (OperatorSourceWeight.operator_id row') = Some op
                  /\ Operator.is_active op = true
                  /\ get_current_load db op < Operator.max_load op).
    { intros l' Hl' Hin'. destruct (IH l' Hl' op w Hin') as (row' & Hr & H').
      exists row'. split; [now right | exact H']. }
    destruct (query_operator db (OperatorSourceWeight.operator_id row)) as [o |] eqn:Eo;
      [| discriminate].
    destruct (Operator.is_active o) eqn:Hact; cbn [negb] in Hl; [| eauto].
    destruct (Z.leb_spec (Operator.max_load o) (get_current_load db o)) as [Hfull | Hfree];
      [eauto |].
    destruct (available_loop db rows) as [l' | e]; [| discriminate].
    injection Hl as <-. destruct Hin as [Heq | Hin]; [| eauto].
    injection Heq as -> <-. exists row. split; [now left | auto].
Qed.

(** An operator returned by the service is one that the filter let through. *)
Lemma assign_operator_to_request_sound (db : Db) (source_id : Z) (rnd : Q)
      (op : Operator.t) :
  assign_operator_to_request db source_id rnd = Return (Some op) ->
  exists row,
    In row (operator_source_weights db)
    /\ OperatorSourceWeight.source_id row = source_id
    /\ query_operator db (OperatorSourceWeight.operator_id row) = Some op
    /\ Operator.is_active op = true
    /\ get_current_load db op < Operator.max_load op.
Proof.
  unfold assign_operator_to_request, get_available_operators.
  destruct (available_loop db (query_weights db source_id)) as [l | e] eqn:El;
    [| discriminate].
  destruct l as [| c cs]; [discriminate |].
  unfold select_operator_weighted.
  destruct (choices _ _ rnd) as [y |] eqn:Ec; [| discriminate].
  intros H. injection H as ->.
  apply choices_In in Ec. apply in_map_iff in Ec as ([op' w] & Hfst & Hin).
  cbn [fst] in Hfst. subst op'.
  destruct (available_loop_sound db _ _ El op w Hin) as (row & Hrow & _ & Hop & Hact & Hload).
  unfold query_weights in Hrow. apply filter_In in Hrow as [Hrow Hsrc].
  apply Z.eqb_eq in Hsrc. exists row. auto 6.
Qed.

Lemma query_operator_Some (db : Db) (k : Z) (op : Operator.t) :
  query_operator db k = Some op -> In op (operators db) /\ Operator.id op = k.
Proof.
  unfold query_operator. intros H. apply find_some in H as [Hin Hk].
  split; [exact Hin | now apply Z.eqb_eq].
Qed.

Lemma NoDup_map_injective {A B} (f : A -> B) (l : list A) (x y : A) :
  NoDup (map f l) -> In x l -> In y l -> f x = f y -> x = y.
Proof.
  induction l as [| h l IH]; intros Hnd Hx Hy Hf; [contradiction |].
  cbn [map] in Hnd. inversion Hnd as [| ? ? Hnotin Hnd']; subst.
  destruct Hx as [-> | Hx], Hy as [-> | Hy]; auto.
  - exfalso. apply Hnotin. rewrite Hf. now apply in_map.
  - exfalso. apply Hnotin. rewrite <- Hf. now apply in_map.
Qed.

Lemma get_current_load_insert (db db' : Db) (row : Request.t) (op : Operator.t) :
  requests db' = (requests db ++ [row])%list ->
  get_current_load db' op
  = get_current_load db op
    + (if is_active_request_of (Operator.id op) row then 1 else 0).
Proof.
  unfold get_current_load. intros ->.
  rewrite filter_app, length_app. cbn [filter].
  destruct (is_active_request_of (Operator.id op) row); cbn [List.length]; lia.
Qed.

(** C1 (amended).  A [create_request] call that runs from its capacity
    filter to its commit with no other commit in between preserves the
    capacity invariant: if no operator has more active requests than its
    maximum load before the call, none has after it. *)
Theorem create_request_preserves_capacity
        (db : Db) (request_data : RequestCreate.t) (rnd : Q) :
  operators_keyed db ->
  capacity_invariant db ->
  capacity_invariant (snd (call (create_request request_data rnd) db)).
Proof.
  intros Hkey Hinv. rewrite call_create_request.
  destruct (query_source db _); [| exact Hinv].
  destruct (assign_operator_to_request db _ rnd) as [a | e] eqn:Ea; [| exact Hinv].
  cbn [snd].
  destruct (after_create_request_tables db request_data a) as (Hops & _ & _ & Hreqs).
  intros op Hop. rewrite Hops in Hop.
  rewrite (get_current_load_insert db _ _ op Hreqs).
  specialize (Hinv op Hop).
  unfold is_active_request_of, request_row.
  cbn [Request.operator_id Request.status].
  destruct a as [chosen |]; cbn [option_map opt_eqb andb]; [| lia].
  destruct (Z.eqb_spec (Operator.id chosen) (Operator.id op)) as [Heq | Hneq];
    cbn [andb]; [| lia].
  apply assign_operator_to_request_sound in Ea as (row & _ & _ & Hq & _ & Hload).
  apply query_operator_Some in Hq as [Hin _].
  assert (chosen = op) by (eapply NoDup_map_injective; eassumption).
  subst chosen. cbn. lia.
Qed.

(** ** Weight configuration *)

Lemma apply_write_frame (db : Db) (w : write) :
  operators (apply_write db w) = operators db
  /\ sources (apply_write db w) = sources db.
Proof. destruct w; split; reflexivity. Qed.

Lemma view_frame (s : Session) :
  operators (view s) = operators (store s) /\ sources (view s) = sources (store s).
Proof.
  destruct s as [st ws]. unfold view. cbn [pending store].
  revert st. induction ws as [| w ws IH]; intros st; [split; reflexivity |].
  cbn [fold_left]. destruct (IH (apply_write st w)) as [Ho Hs].
  destruct (apply_write_frame st w) as [Ho' Hs']. split; congruence.
Qed.

Lemma query_operator_view (s : Session) (k : Z) :
  query_operator (view s) k = query_operator (store s) k.
Proof. apply query_operator_operators. apply view_frame. Qed.

(** What the configuration loop does to a session: it never commits; when it
    returns, it has queued one insert per submitted entry, in order, and
    every entry had an existing operator and a positive weight; when it
    raises, some entry had a missing operator (404) or a weight that is not
    positive (400). *)
Lemma configure_loop_run (source_id : Z)
      (weights : list OperatorSourceWeightCreate.t) :
  forall s : Session,
    store (snd (configure_loop source_id weights s)) = store s
    /\ match fst (configure_loop source_id weights s) with
       | Return created =>
           pending (snd (configure_loop source_id weights s))
           = (pending s ++ map InsertWeight created)%list
           /\ map stored_pair created = map submitted_pair weights
           /\ Forall (fun row => OperatorSourceWeight.source_id row = source_id) created
           /\ Forall (fun wd =>
                        0 < OperatorSourceWeightCreate.weight wd
                        /\ query_operator (store s)
                             (OperatorSourceWeightCreate.operator_id wd) <> None)
                     weights
       | Raise e =>
           exists wd,
             In wd weights
             /\ ((e = HTTPException 404
                        (operator_not_found (OperatorSourceWeightCreate.operator_id wd))
                  /\ query_operator (store s)
                       (OperatorSourceWeightCreate.operator_id wd) = None)
                 \/ (e = HTTPException 400 "Weight must be a positive integer"
                     /\ OperatorSourceWeightCreate.weight wd <= 0))
       end.
Proof.
  induction weights as [| wd rest IH]; intros s.
  - cbn. rewrite app_nil_r. auto.
  - cbn [configure_loop].
    cbv beta iota zeta delta [bind query raise ret add_weight execute].
    rewrite query_operator_view.
    destruct (query_operator (store s) (OperatorSourceWeightCreate.operator_id wd))
      as [op |] eqn:Eop.
    2:{ cbn [fst snd]. split; [reflexivity |]. exists wd. split; [now left | auto]. }
    destruct (Z.leb_spec (OperatorSourceWeightCreate.weight wd) 0) as [Hw | Hw].
    { cbn [fst snd]. split; [reflexivity |]. exists wd. split; [now left | auto]. }
    cbn [pending store].
    set (row := OperatorSourceWeight.mk _ _ _ _).
    set (s1 := mkSession (store s) (pending s ++ [InsertWeight row])).
    destruct (IH s1) as [Hstore Hrest].
    destruct (configure_loop source_id rest s1) as [[created | e] s2].
    + cbn [fst snd] in *. split; [exact Hstore |].
      destruct Hrest as (Hpend & Hpairs & Hsrc & Hall).
      repeat split.
      * rewrite Hpend. unfold s1. cbn [pending map]. now rewrite <- app_assoc.
      * cbn [map]. now rewrite Hpairs.
      * constructor; [reflexivity | exact Hsrc].
      * constructor; [split; [exact Hw | congruence] | exact Hall].
    + cbn [fst snd] in *. split; [exact Hstore |].
      destruct Hrest as (wd' & Hin & Hcase). exists wd'. split; [now right | exact Hcase].
Qed.

Lemma weight_responses_run (created : list OperatorSourceWeight.t) (s : Session) :
  snd (weight_responses created s) = s
  /\ (Forall (fun row => query_operator (store s)
                           (OperatorSourceWeight.operator_id row) <> None) created ->
      exists result, fst (weight_responses created s) = Return result).
Proof.
  induction created as [| row created IH].
  - cbn. split; [reflexivity |]. intros _. now exists [].
  - cbn [weight_responses].
    cbv beta iota zeta delta [bind query raise ret].
    rewrite query_operator_view.
    destruct IH as [Hsnd Hfst].
    destruct (query_operator (store s) (OperatorSourceWeight.operator_id row)) as [op |] eqn:Eop.
    + destruct (weight_responses created s) as [[result | e] s'] eqn:Er;
        cbn [fst snd] in *; (split; [exact Hsnd |]).
      * intros _. eexists; reflexivity.
      * intros Hall. inversion Hall as [| ? ? _ Hall']; subst.
        destruct (Hfst Hall') as (result & Hres). discriminate.
    + cbn [fst snd]. split; [reflexivity |].
      intros Hall. inversion Hall as [| ? ? Hrow _]; subst. congruence.
Qed.

Lemma inserted_weights (created : list OperatorSourceWeight.t) :
  forall db,
    let db' := fold_left apply_write (map InsertWeight created) db in
    operators db' = operators db
    /\ leads db' = leads db
    /\ sources db' = sources db
    /\ requests db' = requests db
    /\ operator_source_weights db' = (operator_source_weights db ++ created)%list.
Proof.
  induction created as [| row created IH]; intros db.
  - cbn. rewrite app_nil_r. auto.
  - cbn [map fold_left]. destruct (IH (apply_write db (InsertWeight row)))
      as (Ho & Hl & Hs & Hr & Hw).
    cbv zeta. rewrite Ho, Hl, Hs, Hr, Hw. cbn. rewrite <- app_assoc. auto.
Qed.

Lemma created_operators_exist (db' db : Db)
      (created : list OperatorSourceWeight.t)
      (weights : list OperatorSourceWeightCreate.t) :
  operators db' = operators db ->
  Forall (fun wd =>
            0 < OperatorSourceWeightCreate.weight wd
            /\ query_operator db (OperatorSourceWeightCreate.operator_id wd) <> None)
         weights ->
  map stored_pair created = map submitted_pair weights ->
  Forall (fun row => query_operator db' (OperatorSourceWeight.operator_id row) <> None)
         created.
Proof.
  intros Ho. revert weights.
  induction created as [| row created IH]; intros weights Hall Hpairs;
    [constructor |].
  destruct weights as [| wd weights]; [discriminate |].
  cbn [map] in Hpairs. injection Hpairs as Hop _ Hrest.
  inversion Hall as [| ? ? [_ Hex] Hall']; subst.
  constructor; [| eapply IH; eassumption].
  rewrite Hop. rewrite (query_operator_operators db' db _ Ho). exact Hex.
Qed.

Lemma call_configure_source_weights (db : Db) (source_id : Z)
      (weights : list OperatorSourceWeightCreate.t) :
  configured db source_id weights (call (configure_source_weights source_id weights) db).
Proof.
  unfold call, configure_source_weights.
  cbv beta iota zeta delta [bind query raise execute commit open_session].
  cbn [view pending store fold_left app].
  destruct (query_source db source_id) as [src |] eqn:Esrc.
  2:{ cbn [store]. apply configure_rejected. now left. }
  cbn [pending store app].
  set (s0 := mkSession db [DeleteWeights source_id]).
  destruct (configure_loop_run source_id weights s0) as [Hstore Hloop].
  destruct (configure_loop source_id weights s0) as [[created | e] s1];
    cbn [fst snd] in Hstore, Hloop.
  - destruct Hloop as (Hpend & Hpairs & Hsrc & Hall).
    destruct s1 as [st1 p1]. unfold view, s0 in *.
    cbn [pending store app fold_left] in *. subst st1 p1.
    cbn [fold_left].
    set (db' := fold_left apply_write (map InsertWeight created)
                          (apply_write db (DeleteWeights source_id))).
    destruct (inserted_weights created (apply_write db (DeleteWeights source_id)))
      as (Ho & Hl & Hs & Hr & Hw). fold db' in Ho, Hl, Hs, Hr, Hw.
    cbn [apply_write operators leads sources requests operator_source_weights]
      in Ho, Hl, Hs, Hr, Hw.
    destruct (weight_responses_run created (mkSession db' [])) as [Hsnd Hfst].
    destruct Hfst as (result & Hres).
    { cbn [store]. apply (created_operators_exist db' db created weights); assumption. }
    destruct (weight_responses created (mkSession db' [])) as [o s2].
    cbn [fst snd] in Hsnd, Hres. subst o s2. cbn [store].
    apply (configure_stored db source_id weights result created db');
      try assumption.
    rewrite Esrc. discriminate.
  - destruct s1 as [st1 p1]. unfold s0 in *. cbn [store] in *. subst st1.
    apply configure_rejected. right. split; [rewrite Esrc; discriminate | exact Hloop].
Qed.

Lemma call_configure_source_weights_cases (db : Db) (source_id : Z)
      (weights : list OperatorSourceWeightCreate.t) :
  (exists e,
      call (configure_source_weights source_id weights) db = (Raise e, db)
      /\ ((e = HTTPException 404 "Source not found"
           /\ query_source db source_id = None)
          \/ (query_source db source_id <> None
              /\ exists wd,
                  In wd weights
                  /\ ((e = HTTPException 404
                             (operator_not_found
                                (OperatorSourceWeightCreate.operator_id wd))
                       /\ query_operator db
                            (OperatorSourceWeightCreate.operator_id wd) = None)
                      \/ (e = HTTPException 400 "Weight must be a positive integer"
                          /\ OperatorSourceWeightCreate.weight wd <= 0)))))
  \/ (exists result created db',
         call (configure_source_weights source_id weights) db = (Return result, db')
         /\ map stored_pair created = map submitted_pair weights
         /\ Forall (fun row => OperatorSourceWeight.source_id row = source_id) created
         /\ Forall (fun wd => 0 < OperatorSourceWeightCreate.weight wd) weights
         /\ operator_source_weights db'
            = (filter (fun w => negb (OperatorSourceWeight.source_id w =? source_id))
                      (operator_source_weights db) ++ created)%list).
Proof.
  pose proof (call_configure_source_weights db source_id weights) as Hc.
  destruct (call (configure_source_weights source_id weights) db) as [o db'].
  inversion Hc; subst.
  - left. eexists. split; [reflexivity | assumption].
  - right. eexists _, _, _. split; [reflexivity |].
    repeat split; try eassumption.
    eapply Forall_impl; [| eassumption]. intros wd [Hpos _]. exact Hpos.
Qed.


(** ** Uniqueness of the weight rows *)

Lemma filtered_keys_distinct {Row Key : Type} (key : Row -> Key)
      (keep : Row -> bool) (rows : list Row)
      (Hdistinct : NoDup (map key rows)) :
  NoDup (map key (filter keep rows)).
Proof.
  induction rows as [| row rows IH]; [constructor |].
  cbn [map] in Hdistinct. apply NoDup_cons_iff in Hdistinct as [Hfresh Hrest].
  cbn [filter]. destruct (keep row); [| exact (IH Hrest)].
  cbn [map]. apply NoDup_cons; [| exact (IH Hrest)].
  intros Hin. apply Hfresh.
  apply in_map_iff in Hin as (other & Hkey & Hin).
  apply filter_In in Hin as [Hin _]. rewrite <- Hkey. now apply in_map.
Qed.

Lemma created_keys (source_id : Z) (created : list OperatorSourceWeight.t) :
  Forall (fun row => OperatorSourceWeight.source_id row = source_id) created ->
  map weight_key created
  = map (fun k => (source_id, k)) (map fst (map stored_pair created)).
Proof.
  induction 1 as [| row created Hrow _ IH]; [reflexivity |].
  cbn [map]. rewrite IH. unfold weight_key at 1. rewrite Hrow. reflexivity.
Qed.

Lemma NoDup_map_pair (k : Z) (l : list Z) :
  NoDup l -> NoDup (map (fun x => (k, x)) l).
Proof.
  induction 1 as [| x l Hnotin _ IH]; [constructor |].
  cbn [map]. constructor; [| exact IH].
  intros Hin. apply in_map_iff in Hin as (y & Hy & Hin). injection Hy as ->.
  contradiction.
Qed.

Lemma submitted_operator_ids (weights : list OperatorSourceWeightCreate.t) :
  map fst (map submitted_pair weights)
  = map OperatorSourceWeightCreate.operator_id weights.
Proof. rewrite map_map. reflexivity. Qed.

Lemma reconfigure_unique_pairs (db : Db)
      (c : Z * list OperatorSourceWeightCreate.t) :
  unique_pairs db ->
  NoDup (map OperatorSourceWeightCreate.operator_id (snd c)) ->
  unique_pairs (reconfigure db c).
Proof.
  intros Huniq Hnd. destruct c as [source_id weights]. unfold reconfigure.
  cbn [fst snd] in *.
  destruct (call_configure_source_weights_cases db source_id weights)
    as [(e & -> & _) | (result & created & db' & -> & Hpairs & Hsrc & _ & Hw)];
    cbn [snd]; [exact Huniq |].
  unfold unique_pairs. rewrite Hw, map_app. apply NoDup_app.
  - now apply filtered_keys_distinct.
  - rewrite (created_keys source_id created Hsrc), Hpairs, submitted_operator_ids.
    now apply NoDup_map_pair.
  - intros key Hold Hnew.
    apply in_map_iff in Hold as (row & <- & Hrow).
    apply filter_In in Hrow as [_ Hne]. apply negb_true_iff, Z.eqb_neq in Hne.
    rewrite (created_keys source_id created Hsrc) in Hnew.
    apply in_map_iff in Hnew as (k & Hk & _).
    unfold weight_key in Hk. injection Hk as Hs _. congruence.
Qed.

Lemma filter_all {A} (p : A -> bool) (l : list A) :
  Forall (fun x => p x = true) l -> filter p l = l.
Proof.
  induction 1 as [| x l Hx _ IH]; [reflexivity |]. cbn [filter]. now rewrite Hx, IH.
Qed.

Lemma filter_none {A} (p : A -> bool) (l : list A) :
  filter p (filter (fun x => negb (p x)) l) = [].
Proof.
  induction l as [| x l IH]; [reflexivity |]. cbn [filter].
  destruct (p x) eqn:E; cbn [negb filter]; [exact IH |]. now rewrite E.
Qed.


(** ** Releasing a request *)

Lemma query_request_Some (db : Db) (k : Z) (request : Request.t) :
  query_request db k = Some request ->
  In request (requests db) /\ Request.id request = k.
Proof.
  unfold query_request. intros H. apply find_some in H as [Hin Hk].
  split; [exact Hin | now apply Z.eqb_eq].
Qed.

Lemma call_update_request_status (db : Db) (request_id : Z) (status : string) :
  call (update_request_status request_id status) db
  = match query_request db request_id with
    | None => (Raise (HTTPException 404 "Request not found"), db)
    | Some request =>
        (Return (status_response db request status),
         apply_write db (UpdateRequestStatus request_id status))
    end.
Proof.
  unfold call, update_request_status.
  cbv beta iota zeta delta [bind query raise ret execute commit open_session].
  cbn [view pending store fold_left app].
  destruct (query_request db request_id) as [request |] eqn:Ereq; [| reflexivity].
  apply query_request_Some in Ereq as [_ Hid].
  cbn [view pending store fold_left app].
  unfold status_response, operator_name_of, query_operator.
  cbn [apply_write operators]. rewrite Hid. reflexivity.
Qed.

Lemma set_status_id (k : Z) (st : string) (r : Request.t) :
  Request.id (set_status k st r) = Request.id r.
Proof. unfold set_status. destruct (Request.id r =? k); reflexivity. Qed.

Lemma set_status_idempotent (k : Z) (st : string) (r : Request.t) :
  set_status k st (set_status k st r) = set_status k st r.
Proof.
  unfold set_status at 1. rewrite set_status_id.
  unfold set_status. destruct (Request.id r =? k); reflexivity.
Qed.

Lemma find_set_status (k : Z) (st : string) (l : list Request.t) :
  find (fun r => Request.id r =? k) (map (set_status k st) l)
  = option_map (set_status k st) (find (fun r => Request.id r =? k) l).
Proof.
  induction l as [| r l IH]; [reflexivity |].
  cbn [map find]. rewrite set_status_id.
  destruct (Request.id r =? k); [reflexivity | exact IH].
Qed.

Lemma get_current_load_nonneg (db : Db) (op : Operator.t) :
  0 <= get_current_load db op.
Proof. unfold get_current_load. lia. Qed.

(** C9.  Applying [update_request_status] with the same status to the same
    request a second time gives the same answer and leaves the database as
    the first application left it; and the load of an operator, being a
    count of rows, is never negative. *)
Theorem update_request_status_idempotent
        (db : Db) (request_id : Z) (status : string) :
  (let (o1, db1) := call (update_request_status request_id status) db in
   call (update_request_status request_id status) db1 = (o1, db1))
  /\ (forall d op, 0 <= get_current_load d op).
Proof.
  split; [| exact get_current_load_nonneg].
  rewrite call_update_request_status.
  destruct (query_request db request_id) as [request |] eqn:Ereq.
  - rewrite call_update_request_status.
    unfold query_request in *. cbn [apply_write requests].
    rewrite find_set_status, Ereq. cbn [option_map].
    f_equal.
    + unfold status_response. f_equal.
      unfold set_status. destruct (Request.id request =? request_id); reflexivity.
    + f_equal. rewrite map_map. apply map_ext. intros r. apply set_status_idempotent.
  - rewrite call_update_request_status, Ereq. reflexivity.
Qed.

Lemma released_load_le (k request_id : Z) (status : string) (l : list Request.t) :
  status <> "active" ->
  (List.length (filter (is_active_request_of k) (map (set_status request_id status) l))
   <= List.length (filter (is_active_request_of k) l))%nat.
Proof.
  intros Hst. induction l as [| r l IH]; [apply Nat.le_refl |].
  cbn [map filter].
  destruct (is_active_request_of k (set_status request_id status r)) eqn:Enew.
  - assert (Eold : is_active_request_of k r = true).
    { unfold is_active_request_of, set_status in *.
      destruct (Request.id r =? request_id); [| exact Enew].
      cbn [Request.operator_id Request.status] in Enew.
      apply andb_true_iff in Enew as [_ Hs]. apply String.eqb_eq in Hs. congruence. }
    rewrite Eold. cbn [List.length]. lia.
  - destruct (is_active_request_of k r); cbn [List.length]; lia.
Qed.

Lemma released_load_lt (k request_id : Z) (status : string)
      (l : list Request.t) (request : Request.t) :
  status <> "active" ->
  In request l ->
  Request.id request = request_id ->
  is_active_request_of k request = true ->
  (List.length (filter (is_active_request_of k) (map (set_status request_id status) l))
   < List.length (filter (is_active_request_of k) l))%nat.
Proof.
  intros Hst Hin Hid Hact. induction l as [| r l IH]; [contradiction |].
  cbn [map filter]. destruct Hin as [-> | Hin].
  - rewrite Hact.
    assert (Enew : is_active_request_of k (set_status request_id status request) = false).
    { unfold is_active_request_of, set_status. rewrite Hid, Z.eqb_refl.
      cbn [Request.operator_id Request.status].
      apply andb_false_iff. right. now apply String.eqb_neq. }
    rewrite Enew. cbn [List.length].
    pose proof (released_load_le k request_id status l Hst). lia.
  - specialize (IH Hin).
    destruct (is_active_request_of k (set_status request_id status r)) eqn:Enew.
    + assert (Eold : is_active_request_of k r = true).
      { unfold is_active_request_of, set_status in *.
        destruct (Request.id r =? request_id); [| exact Enew].
        cbn [Request.operator_id Request.status] in Enew.
        apply andb_true_iff in Enew as [_ Hs]. apply String.eqb_eq in Hs. congruence. }
      rewrite Eold. cbn [List.length]. lia.
    + destruct (is_active_request_of k r); cbn [List.length]; lia.
Qed.

(** An operator that the filter lets through can be drawn. *)
Lemma available_operator_can_be_drawn (db : Db) (source_id : Z)
      (op : Operator.t) (w : Z) :
  db_consistent db ->
  In (op, w) (capacity_filter_spec db source_id) ->
  exists rnd, (0 <= rnd)%Q /\ (rnd < 1)%Q
              /\ assign_operator_to_request db source_id rnd = Return (Some op).
Proof.
  intros [Hfk Hpos] Hin.
  pose proof (get_available_operators_filter db source_id Hfk) as Hav.
  pose proof (capacity_filter_spec_positive db source_id Hpos) as Hposc.
  set (candidates := capacity_filter_spec db source_id) in *.
  assert (Hne : candidates <> []) by (intros E; rewrite E in Hin; contradiction).
  apply In_nth_error in Hin as (i & Hi).
  pose proof (total_weight_positive candidates Hne Hposc) as Htot.
  assert (Hw : 0 < w) by (apply (Hposc (op, w)); eapply nth_error_In; eassumption).
  pose proof (prefix_weight_total candidates i Hposc) as [Hlo _].
  pose proof (prefix_weight_total candidates (S i) Hposc) as [_ Hhi].
  fold (cumulative_weight candidates i) in Hhi.
  rewrite (cumulative_weight_step _ _ _ _ Hi) in Hhi.
  set (r := prefix_weight candidates i) in *.
  exists (draw_of r (total_weight candidates)).
  destruct (draw_of_unit r (total_weight candidates)) as [H0 H1]; [lia |].
  split; [exact H0 |]. split; [exact H1 |].
  unfold assign_operator_to_request. rewrite Hav. fold candidates.
  destruct candidates as [| c cs] eqn:Ec; [congruence |].
  rewrite (select_at_drawn_index (c :: cs) Hne Hposc).
  rewrite (drawn_index_interval (c :: cs) Hne Hposc _ i op w Hi).
  - rewrite Hi. reflexivity.
  - rewrite draw_of_floor by exact Htot. fold r. lia.
Qed.


(** ** Statistics *)


(** C6 (amended).  With no candidates [select_operator_weighted] returns
    [None]; it does not raise. *)
Theorem select_operator_weighted_empty (rnd : Q) :
  select_operator_weighted [] rnd = Return None.
Proof. reflexivity. Qed.

(** * Worked examples *)

Lemma example_db_consistent : db_consistent example_db.
Proof.
  split; intros row [<- | [<- | []]]; cbv; congruence.
Defined.

Lemma example_db_keyed : operators_keyed example_db.
Proof.
  unfold operators_keyed. cbn.
  constructor; [intros [H | []]; discriminate |].
  constructor; [intros [] | constructor].
Defined.

Lemma example_db_within_capacity : capacity_invariant example_db.
Proof. intros op [<- | [<- | []]]; cbv; congruence. Defined.

Lemma example_candidates_positive : positive_weights example_candidates.
Proof. intros p [<- | [<- | []]]; reflexivity. Defined.

(** C1, counterexample.  Two calls for the same source overlap on a database
    where the only operator has room for one request: both filters see load
    0, both draws pick the operator, both inserts commit, and the operator
    ends with two active requests against a maximum of one. *)
Lemma overlapped_create_requests_exceed_capacity :
  operators_keyed race_db
  /\ capacity_invariant race_db
  /\ ~ capacity_invariant
       (overlapped_create_requests race_db example_request example_request 0 0).
Proof.
  split; [| split].
  - unfold operators_keyed. cbn. constructor; [intros [] | constructor].
  - intros op [<- | []]. cbv. congruence.
  - intros H.
    assert (Hin : In alice (operators (overlapped_create_requests
                                         race_db example_request example_request 0 0)))
      by (vm_compute; left; reflexivity).
    specialize (H alice Hin). vm_compute in H. apply H. reflexivity.
Qed.

Lemma create_request_preserves_capacity_witness :
  operators_keyed example_db
  /\ capacity_invariant example_db
  /\ capacity_invariant (snd (call (create_request example_request 0) example_db)).
Proof.
  split; [exact example_db_keyed |]. split; [exact example_db_within_capacity |].
  apply (create_request_preserves_capacity example_db example_request 0).
  - exact example_db_keyed.
  - exact example_db_within_capacity.
Defined.







(** C6, counterexample.  With no candidates the selection does not raise. *)
Lemma select_operator_weighted_empty_does_not_raise :
  ~ exists e, select_operator_weighted [] 0 = Raise e.
Proof. intros [e H]. discriminate H. Qed.





(** * Further properties of the service and the handlers *)

(** ** Who can be assigned *)

(** X1.  Whatever the draw, an operator that [assign_operator_to_request]
    returns is an operator row that is active, has fewer active requests than
    its maximum load (so a maximum load of 0 or less is never assigned), and
    has a weight row for the source. *)
Theorem assign_operator_to_request_only_eligible
        (db : Db) (source_id : Z) (rnd : Q) (op : Operator.t) :
  assign_operator_to_request db source_id rnd = Return (Some op) ->
  In op (operators db)
  /\ Operator.is_active op = true
  /\ get_current_load db op < Operator.max_load op
  /\ 0 < Operator.max_load op
  /\ exists row,
      In row (operator_source_weights db)
      /\ OperatorSourceWeight.source_id row = source_id
      /\ OperatorSourceWeight.operator_id row = Operator.id op.
Proof.
  intros Hassign.
  apply assign_operator_to_request_sound in Hassign
    as (row & Hrow & Hsrc & Hq & Hact & Hload).
  apply query_operator_Some in Hq as [Hin Hid].
  pose proof (get_current_load_nonneg db op) as Hnonneg.
  repeat split; try assumption; [lia |].
  exists row. auto.
Qed.

Lemma assign_operator_to_request_only_eligible_witness :
  assign_operator_to_request example_db 1 0 = Return (Some alice)
  /\ Operator.is_active alice = true
  /\ get_current_load example_db alice < Operator.max_load alice.
Proof.
  split; [reflexivity |].
  destruct (assign_operator_to_request_only_eligible example_db 1 0 alice eq_refl)
    as (_ & Hact & Hload & _).
  split; assumption.
Defined.

Lemma available_loop_raises (db : Db) (rows : list OperatorSourceWeight.t) :
  (forall e, available_loop db rows = Raise e -> e = AttributeError)
  /\ (available_loop db rows = Raise AttributeError
      <-> exists row,
          In row rows
          /\ query_operator db (OperatorSourceWeight.operator_id row) = None).
Proof.
  induction rows as [| row rows [IHe IHiff]].
  - cbn. split; [discriminate |]. split; [discriminate | intros (row & [] & _)].
  - cbn [available_loop].
    assert (Hlater : (exists r, In r rows
                                /\ query_operator db (OperatorSourceWeight.operator_id r) = None)
                     -> exists r, In r (row :: rows)
                                  /\ query_operator db (OperatorSourceWeight.operator_id r) = None).
    { intros (r & Hr & Hnone). exists r. split; [now right | exact Hnone]. }
    destruct (query_operator db (OperatorSourceWeight.operator_id row)) as [op |] eqn:Eop.
    + assert (Hearlier : (exists r, In r (row :: rows)
                                    /\ query_operator db (OperatorSourceWeight.operator_id r) = None)
                         -> exists r, In r rows
                                      /\ query_operator db (OperatorSourceWeight.operator_id r) = None).
      { intros (r & [<- | Hr] & Hnone); [congruence |]. exists r. auto. }
      destruct (negb (Operator.is_active op)).
      { split; [exact IHe |]. rewrite IHiff. split; assumption. }
      destruct (Operator.max_load op <=? get_current_load db op).
      { split; [exact IHe |]. rewrite IHiff. split; assumption. }
      destruct (available_loop db rows) as [l | e'].
      * split; [discriminate |]. split; [discriminate |].
        intros H. apply Hearlier, IHiff in H. discriminate.
      * split.
        -- intros e He. injection He as <-. now apply IHe.
        -- rewrite (IHe e' eq_refl) in *. split; [intros _ | reflexivity].
           apply Hlater, IHiff. reflexivity.
    + split; [intros e He; now injection He |].
      split; [intros _ | reflexivity]. exists row. split; [now left | exact Eop].
Qed.

(** X2.  [get_available_operators] raises exactly when a weight row of the
    source points at an operator that does not exist, and the exception is
    then the [AttributeError] of [operator.is_active] on [None]. *)
Theorem get_available_operators_raises_iff_dangling (db : Db) (source_id : Z) :
  (forall e, get_available_operators db source_id = Raise e -> e = AttributeError)
  /\ (get_available_operators db source_id = Raise AttributeError
      <-> exists row,
          In row (operator_source_weights db)
          /\ OperatorSourceWeight.source_id row = source_id
          /\ query_operator db (OperatorSourceWeight.operator_id row) = None).
Proof.
  unfold get_available_operators.
  destruct (available_loop_raises db (query_weights db source_id)) as [He Hiff].
  split; [exact He |]. rewrite Hiff. unfold query_weights. split.
  - intros (row & Hrow & Hnone). apply filter_In in Hrow as [Hrow Hsrc].
    apply Z.eqb_eq in Hsrc. exists row. auto.
  - intros (row & Hrow & Hsrc & Hnone). exists row. split; [| exact Hnone].
    apply filter_In. split; [exact Hrow | now apply Z.eqb_eq].
Qed.

Lemma bisect_loop_bounds (a : list Z) (x : Q) (fuel : nat) :
  forall lo hi, (lo <= hi)%nat -> (lo <= bisect_loop fuel a x lo hi <= hi)%nat.
Proof.
  induction fuel as [| fuel IH]; intros lo hi Hle; cbn [bisect_loop]; [lia |].
  destruct (Nat.ltb_spec lo hi) as [Hlt | Hge]; [| lia].
  assert (Hmid : (lo <= (lo + hi) / 2 < hi)%nat).
  { split.
    - apply Nat.div_le_lower_bound; lia.
    - apply Nat.Div0.div_lt_upper_bound; lia. }
  destruct (Qltb x (inject_Z (nth ((lo + hi) / 2) a 0))).
  - pose proof (IH lo ((lo + hi) / 2)%nat ltac:(lia)). lia.
  - pose proof (IH ((lo + hi) / 2 + 1)%nat hi ltac:(lia)). lia.
Qed.



(** ** What [create_request] writes *)

Lemma next_id_fresh (ids : list Z) (k : Z) : In k ids -> k < next_id ids.
Proof.
  unfold next_id. induction ids as [| i ids IH]; intros Hin; [contradiction |].
  cbn [fold_right]. destruct Hin as [-> | Hin]; [lia |]. specialize (IH Hin). lia.
Qed.

Lemma find_app_last {A} (p : A -> bool) (l : list A) (x : A) :
  (forall y, In y l -> p y = false) -> p x = true ->
  find p (l ++ [x]) = Some x.
Proof.
  intros Hnone Hx. induction l as [| h l IH]; cbn [app find].
  - now rewrite Hx.
  - rewrite (Hnone h (or_introl eq_refl)). apply IH.
    intros y Hy. apply Hnone. now right.
Qed.

Lemma find_app_first {A} (p : A -> bool) (l : list A) (x y : A) :
  find p l = Some y -> find p (l ++ [x]) = Some y.
Proof.
  induction l as [| h l IH]; cbn [app find]; [discriminate |].
  destruct (p h); [trivial | exact IH].
Qed.

Lemma call_create_request_Return (db db' : Db) (request_data : RequestCreate.t)
      (rnd : Q) (response : RequestResponse.t) :
  call (create_request request_data rnd) db = (Return response, db') ->
  exists a,
    query_source db (RequestCreate.source_id request_data) <> None
    /\ assign_operator_to_request db (RequestCreate.source_id request_data) rnd
       = Return a
    /\ response = response_of (request_row db request_data a) a
    /\ db' = after_create_request db request_data a.
Proof.
  rewrite call_create_request.
  destruct (query_source db _); [| discriminate].
  destruct (assign_operator_to_request db _ rnd) as [a | e]; [| discriminate].
  intros H. injection H as <- <-. exists a. repeat split. discriminate.
Qed.

(** X4.  A [create_request] that raises leaves the committed database as it
    was; in particular the lead inserted and flushed before the source check
    is not kept when the source turns out to be missing. *)
Theorem create_request_failure_keeps_database
        (db : Db) (request_data : RequestCreate.t) (rnd : Q) (e : exn) :
  fst (call (create_request request_data rnd) db) = Raise e ->
  snd (call (create_request request_data rnd) db) = db.
Proof.
  rewrite call_create_request.
  destruct (query_source db _); [| reflexivity].
  destruct (assign_operator_to_request db _ rnd); [discriminate | reflexivity].
Qed.

Lemma create_request_failure_keeps_database_witness :
  fst (call (create_request (RequestCreate.mk "new-lead" 9 None None None None) 0)
            example_db)
  = Raise (HTTPException 404 "Source not found")
  /\ snd (call (create_request (RequestCreate.mk "new-lead" 9 None None None None) 0)
               example_db)
     = example_db.
Proof.
  split; [reflexivity |].
  exact (create_request_failure_keeps_database
           example_db (RequestCreate.mk "new-lead" 9 None None None None) 0
           (HTTPException 404 "Source not found") eq_refl).
Defined.

(** The id given to a new request is larger than every id in use. *)
Lemma request_row_fresh (db : Db) (request_data : RequestCreate.t)
      (a : option Operator.t) :
  forall r, In r (requests db) ->
            Request.id r <> Request.id (request_row db request_data a).
Proof.
  intros r Hr. cbn [request_row Request.id].
  pose proof (next_id_fresh (map Request.id (requests db)) (Request.id r)
                (in_map Request.id _ _ Hr)).
  lia.
Qed.

(** X5.  A [create_request] that returns has appended exactly one request
    row: it carries the answered id, lead, source and operator, the status
    "active", and an id that no earlier request has; the earlier requests,
    the operators, the sources and the weight rows are untouched. *)
Theorem create_request_appends_one_request
        (db db' : Db) (request_data : RequestCreate.t) (rnd : Q)
        (response : RequestResponse.t) :
  call (create_request request_data rnd) db = (Return response, db') ->
  requests db'
  = (requests db
       ++ [Request.mk (RequestResponse.id response)
                      (RequestResponse.lead_id response)
                      (RequestCreate.source_id request_data)
                      (RequestResponse.operator_id response)
                      "active"
                      (RequestCreate.message request_data)])%list
  /\ ~ In (RequestResponse.id response) (map Request.id (requests db))
  /\ (NoDup (map Request.id (requests db)) ->
      NoDup (map Request.id (requests db')))
  /\ operators db' = operators db
  /\ sources db' = sources db
  /\ operator_source_weights db' = operator_source_weights db.
Proof.
  intros Hcall.
  apply call_create_request_Return in Hcall as (a & _ & _ & -> & ->).
  destruct (after_create_request_tables db request_data a) as (Ho & Hs & Hw & Hr).
  assert (Hfresh : ~ In (Request.id (request_row db request_data a))
                        (map Request.id (requests db))).
  { intros Hin. apply in_map_iff in Hin as (r & Hid & Hr').
    exact (request_row_fresh db request_data a r Hr' Hid). }
  repeat split; try assumption.
  intros Hnd. rewrite Hr, map_app. apply NoDup_app; [exact Hnd | |].
  - cbn [map]. constructor; [intros [] | constructor].
  - intros k Hold [<- | []]. exact (Hfresh Hold).
Qed.

Lemma create_request_appends_one_request_witness :
  exists response db',
    call (create_request example_request 0) example_db = (Return response, db')
    /\ List.length (requests db') = 1%nat.
Proof.
  destruct (call (create_request example_request 0) example_db)
    as [o db'] eqn:Ecall.
  assert (Hret : exists response, o = Return response).
  { vm_compute in Ecall. injection Ecall as <- _. eexists; reflexivity. }
  destruct Hret as [response ->].
  exists response, db'. split; [reflexivity |].
  destruct (create_request_appends_one_request
              example_db db' example_request 0 response Ecall) as (Hreq & _).
  rewrite Hreq. reflexivity.
Defined.

(** X6.  After a [create_request] that returns, the load of every operator
    whose id is the answered [operator_id] is one more than before, and the
    load of every other operator is what it was; when no operator was
    assigned no load changes. *)
Theorem create_request_load_accounting
        (db db' : Db) (request_data : RequestCreate.t) (rnd : Q)
        (response : RequestResponse.t) :
  call (create_request request_data rnd) db = (Return response, db') ->
  forall op,
    get_current_load db' op
    = get_current_load db op
      + (if opt_eqb (RequestResponse.operator_id response) (Operator.id op)
         then 1 else 0).
Proof.
  intros Hcall op.
  apply call_create_request_Return in Hcall as (a & _ & _ & -> & ->).
  destruct (after_create_request_tables db request_data a) as (_ & _ & _ & Hr).
  rewrite (get_current_load_insert db _ _ op Hr).
  unfold is_active_request_of.
  cbn [request_row response_of Request.operator_id Request.status
       RequestResponse.operator_id].
  destruct (opt_eqb (option_map Operator.id a) (Operator.id op)); reflexivity.
Qed.

Lemma create_request_load_accounting_witness :
  exists response db',
    call (create_request example_request 0) example_db = (Return response, db')
    /\ get_current_load db' alice = 1.
Proof.
  destruct (call (create_request example_request 0) example_db)
    as [o db'] eqn:Ecall.
  assert (Hret : exists response,
             o = Return response /\ RequestResponse.operator_id response = Some 1).
  { vm_compute in Ecall. injection Ecall as <- _. eexists; split; reflexivity. }
  destruct Hret as (response & -> & Hop).
  exists response, db'. split; [reflexivity |].
  rewrite (create_request_load_accounting
             example_db db' example_request 0 response Ecall alice).
  rewrite Hop. reflexivity.
Defined.

(** ** Leads *)

Lemma lead_after_create_request (db : Db) (request_data : RequestCreate.t)
      (a : option Operator.t) :
  query_lead_by_external_id (after_create_request db request_data a)
                            (RequestCreate.lead_external_id request_data)
  = Some (lead_for db request_data).
Proof.
  assert (Hleads : leads (after_create_request db request_data a)
                   = fold_left (fun ls w => match w with
                                            | InsertLead row => (ls ++ [row])%list
                                            | _ => ls
                                            end)
                               (lead_writes db request_data) (leads db)).
  { unfold after_create_request, lead_writes, view. cbn [apply_write leads pending store].
    destruct (query_lead_by_external_id db _); reflexivity. }
  unfold query_lead_by_external_id at 1. rewrite Hleads.
  unfold lead_writes, lead_for.
  destruct (query_lead_by_external_id db (RequestCreate.lead_external_id request_data))
    as [l |] eqn:El; cbn [fold_left]; unfold query_lead_by_external_id in El.
  - exact El.
  - apply find_app_last.
    + intros y Hy. exact (find_none _ _ El y Hy).
    + cbn [Lead.external_id]. apply String.eqb_refl.
Qed.

(** X7.  The lead is found or created by its external id: after a
    [create_request] that returns, a second one with the same
    [lead_external_id] answers with the same [lead_id] and adds no lead row. *)
Theorem create_request_reuses_lead
        (db db1 db2 : Db) (request1 request2 : RequestCreate.t) (rnd1 rnd2 : Q)
        (response1 response2 : RequestResponse.t) :
  RequestCreate.lead_external_id request2 = RequestCreate.lead_external_id request1 ->
  call (create_request request1 rnd1) db = (Return response1, db1) ->
  call (create_request request2 rnd2) db1 = (Return response2, db2) ->
  RequestResponse.lead_id response2 = RequestResponse.lead_id response1
  /\ leads db2 = leads db1.
Proof.
  intros Hext Hcall1 Hcall2.
  apply call_create_request_Return in Hcall1 as (a1 & _ & _ & -> & ->).
  apply call_create_request_Return in Hcall2 as (a2 & _ & _ & -> & ->).
  pose proof (lead_after_create_request db request1 a1) as Hlead.
  rewrite <- Hext in Hlead.
  split.
  - cbn [response_of request_row RequestResponse.lead_id Request.lead_id].
    unfold lead_for at 1. rewrite Hlead. reflexivity.
  - unfold after_create_request at 1, lead_writes at 1, view.
    rewrite Hlead. reflexivity.
Qed.

Lemma create_request_reuses_lead_witness :
  exists response1 db1 response2 db2,
    call (create_request (RequestCreate.mk "new-lead" 1 None None None None) 0)
         example_db = (Return response1, db1)
    /\ call (create_request (RequestCreate.mk "new-lead" 1 None None None None) 0)
            db1 = (Return response2, db2)
    /\ RequestResponse.lead_id response2 = RequestResponse.lead_id response1
    /\ leads db2 = leads db1.
Proof.
  destruct (call (create_request (RequestCreate.mk "new-lead" 1 None None None None) 0)
                 example_db) as [o1 db1] eqn:E1.
  assert (H1 : exists response1, o1 = Return response1).
  { vm_compute in E1. injection E1 as <- _. eexists; reflexivity. }
  destruct H1 as [response1 ->].
  destruct (call (create_request (RequestCreate.mk "new-lead" 1 None None None None) 0)
                 db1) as [o2 db2] eqn:E2.
  assert (H2 : exists response2, o2 = Return response2).
  { vm_compute in E1. injection E1 as _ <-.
    vm_compute in E2. injection E2 as <- _. eexists; reflexivity. }
  destruct H2 as [response2 ->].
  exists response1, db1, response2, db2.
  split; [reflexivity |]. split; [exact E2 |].
  exact (create_request_reuses_lead example_db db1 db2 _ _ 0 0 response1 response2
           eq_refl E1 E2).
Defined.

(** ** Reading back what was written *)

Lemma call_get_request (db : Db) (request_id : Z) :
  call (get_request request_id) db
  = (match query_request db request_id with
     | None => Raise (HTTPException 404 "Request not found")
     | Some request => Return (request_response db request)
     end, db).
Proof.
  unfold call, get_request.
  cbv beta iota zeta delta [bind query raise open_session].
  cbn [view pending store fold_left].
  destruct (query_request db request_id); reflexivity.
Qed.

(** X8.  [get_request] with the id that a [create_request] answered returns
    that same answer, and changes nothing. *)
Theorem create_request_then_get_request
        (db db' : Db) (request_data : RequestCreate.t) (rnd : Q)
        (response : RequestResponse.t) :
  call (create_request request_data rnd) db = (Return response, db') ->
  call (get_request (RequestResponse.id response)) db' = (Return response, db').
Proof.
  intros Hcall.
  apply call_create_request_Return in Hcall as (a & _ & Ha & -> & ->).
  rewrite call_get_request.
  destruct (after_create_request_tables db request_data a) as (Ho & _ & _ & Hr).
  set (row := request_row db request_data a) in *.
  assert (Hfind : query_request (after_create_request db request_data a) (Request.id row)
                  = Some row).
  { unfold query_request. rewrite Hr. apply find_app_last.
    - intros r Hin. apply Z.eqb_neq. exact (request_row_fresh db request_data a r Hin).
    - apply Z.eqb_refl. }
  change (RequestResponse.id (response_of row a)) with (Request.id row).
  rewrite Hfind. f_equal. f_equal.
  unfold request_response, response_of. f_equal.
  unfold operator_name_of, row. cbn [request_row Request.operator_id].
  destruct a as [op |]; [| reflexivity]. cbn [option_map].
  apply assign_operator_to_request_sound in Ha as (wrow & _ & _ & Hq & _).
  apply query_operator_Some in Hq as Hq'. destruct Hq' as [_ Hid].
  rewrite (query_operator_operators _ db _ Ho), Hid, Hq. reflexivity.
Qed.

Lemma create_request_then_get_request_witness :
  exists response db',
    call (create_request example_request 0) example_db = (Return response, db')
    /\ call (get_request (RequestResponse.id response)) db' = (Return response, db').
Proof.
  destruct (call (create_request example_request 0) example_db)
    as [o db'] eqn:Ecall.
  assert (Hret : exists response, o = Return response).
  { vm_compute in Ecall. injection Ecall as <- _. eexists; reflexivity. }
  destruct Hret as [response ->].
  exists response, db'. split; [reflexivity |].
  exact (create_request_then_get_request example_db db' example_request 0 response Ecall).
Defined.

(** X9.  [get_request] with the id of a request whose status
    [update_request_status] has just set returns the answer of that update;
    and [update_request_status] raises, with 404 and without a change,
    exactly when no request has the id. *)
Theorem update_request_status_then_get_request
        (db : Db) (request_id : Z) (status : string) :
  (query_request db request_id = None ->
   call (update_request_status request_id status) db
   = (Raise (HTTPException 404 "Request not found"), db))
  /\ (forall response db',
         call (update_request_status request_id status) db = (Return response, db') ->
         query_request db request_id <> None
         /\ RequestResponse.status response = status
         /\ call (get_request request_id) db' = (Return response, db')).
Proof.
  rewrite call_update_request_status. split.
  - intros ->. reflexivity.
  - intros response db' Hcall.
    destruct (query_request db request_id) as [request |] eqn:Ereq; [| discriminate].
    injection Hcall as <- <-. split; [discriminate |]. split; [reflexivity |].
    rewrite call_get_request. unfold query_request in *.
    cbn [apply_write requests]. rewrite find_set_status, Ereq. cbn [option_map].
    apply find_some in Ereq as [_ Hid]. apply Z.eqb_eq in Hid.
    f_equal. f_equal. unfold request_response, status_response, set_status.
    rewrite Hid, Z.eqb_refl.
    cbn [Request.id Request.lead_id Request.source_id Request.operator_id
         Request.status Request.message].
    reflexivity.
Qed.

Lemma update_request_status_then_get_request_witness :
  exists response db',
    call (update_request_status 1 "closed") full_db = (Return response, db')
    /\ RequestResponse.status response = "closed"
    /\ call (get_request 1) db' = (Return response, db').
Proof.
  destruct (call (update_request_status 1 "closed") full_db) as [o db'] eqn:Ecall.
  assert (Hret : exists response, o = Return response).
  { vm_compute in Ecall. injection Ecall as <- _. eexists; reflexivity. }
  destruct Hret as [response ->].
  exists response, db'. split; [reflexivity |].
  destruct (proj2 (update_request_status_then_get_request full_db 1 "closed")
                  response db' Ecall) as (_ & Hst & Hget).
  split; assumption.
Defined.

(** ** Consistency of the weight table *)

Lemma call_configure_source_weights_stored (db db' : Db) (source_id : Z)
      (weights : list OperatorSourceWeightCreate.t)
      (result : list OperatorSourceWeightResponse.t) :
  call (configure_source_weights source_id weights) db = (Return result, db') ->
  exists created,
    query_source db source_id <> None
    /\ map stored_pair created = map submitted_pair weights
    /\ Forall (fun row => OperatorSourceWeight.source_id row = source_id) created
    /\ Forall (fun wd =>
                 0 < OperatorSourceWeightCreate.weight wd
                 /\ query_operator db (OperatorSourceWeightCreate.operator_id wd) <> None)
              weights
    /\ operators db' = operators db
    /\ leads db' = leads db
    /\ sources db' = sources db
    /\ requests db' = requests db
    /\ operator_source_weights db'
       = (filter (fun w => negb (OperatorSourceWeight.source_id w =? source_id))
                 (operator_source_weights db) ++ created)%list.
Proof.
  intros Hcall.
  pose proof (call_configure_source_weights db source_id weights) as Hc.
  rewrite Hcall in Hc. inversion Hc; subst.
  eexists. repeat split; eassumption.
Qed.

Lemma created_rows_valid (db : Db)
      (created : list OperatorSourceWeight.t)
      (weights : list OperatorSourceWeightCreate.t) :
  map stored_pair created = map submitted_pair weights ->
  Forall (fun wd =>
            0 < OperatorSourceWeightCreate.weight wd
            /\ query_operator db (OperatorSourceWeightCreate.operator_id wd) <> None)
         weights ->
  Forall (fun row =>
            0 < OperatorSourceWeight.weight row
            /\ query_operator db (OperatorSourceWeight.operator_id row) <> None)
         created.
Proof.
  revert weights. induction created as [| row created IH]; intros weights Hpairs Hall;
    [constructor |].
  destruct weights as [| wd weights]; [discriminate |].
  cbn [map] in Hpairs. injection Hpairs as Hop Hw Hrest.
  inversion Hall as [| ? ? [Hpos Hex] Hall']; subst.
  constructor; [| eapply IH; eassumption].
  rewrite Hop, Hw. split; assumption.
Qed.

(** X10.  The three handlers that write requests and weights keep the weight
    table consistent: if every weight row points at an existing operator and
    has a positive weight before a call of [configure_source_weights],
    [create_request] or [update_request_status], so it is after the call,
    whether the call returns or raises. *)
Theorem handlers_keep_db_consistent (db : Db) :
  db_consistent db ->
  (forall source_id weights,
      db_consistent (snd (call (configure_source_weights source_id weights) db)))
  /\ (forall request_data rnd,
         db_consistent (snd (call (create_request request_data rnd) db)))
  /\ (forall request_id status,
         db_consistent (snd (call (update_request_status request_id status) db))).
Proof.
  intros [Hfk Hpos]. split; [| split].
  - intros source_id weights.
    destruct (call (configure_source_weights source_id weights) db) as [[result | e] db']
      eqn:Ecall.
    + apply call_configure_source_weights_stored in Ecall
        as (created & _ & Hpairs & _ & Hall & Ho & _ & _ & _ & Hw).
      pose proof (created_rows_valid db created weights Hpairs Hall) as Hcreated.
      rewrite Forall_forall in Hcreated. cbn [snd].
      split; intros row Hrow; rewrite Hw in Hrow; apply in_app_or in Hrow.
      * rewrite (query_operator_operators db' db _ Ho).
        destruct Hrow as [Hold | Hnew].
        -- apply filter_In in Hold as [Hold _]. now apply Hfk.
        -- now apply Hcreated.
      * destruct Hrow as [Hold | Hnew].
        -- apply filter_In in Hold as [Hold _]. now apply Hpos.
        -- now apply Hcreated.
    + destruct (call_configure_source_weights_cases db source_id weights)
        as [(e' & Heq & _) | (result & created & db'' & Heq & _)];
        rewrite Ecall in Heq; [| discriminate].
      injection Heq as _ ->. cbn [snd]. split; assumption.
  - intros request_data rnd. rewrite call_create_request.
    destruct (query_source db _); [| split; assumption].
    destruct (assign_operator_to_request db _ rnd) as [a | e]; [| split; assumption].
    cbn [snd].
    destruct (after_create_request_tables db request_data a) as (Ho & _ & Hw & _).
    split; intros row Hrow; rewrite Hw in Hrow.
    + rewrite (query_operator_operators _ db _ Ho). now apply Hfk.
    + now apply Hpos.
  - intros request_id status. rewrite call_update_request_status.
    destruct (query_request db request_id); split; assumption.
Qed.

Lemma handlers_keep_db_consistent_witness :
  db_consistent example_db
  /\ db_consistent
       (snd (call (configure_source_weights
                     1 [OperatorSourceWeightCreate.mk 2 9])
                  example_db)).
Proof.
  split; [exact example_db_consistent |].
  exact (proj1 (handlers_keep_db_consistent example_db example_db_consistent)
               1 [OperatorSourceWeightCreate.mk 2 9]).
Defined.

(** ** Loads under a status change *)

(** X11.  Giving a request a status other than "active" raises no
    operator's load, so it keeps the capacity invariant; this holds for a
    request that was active, one that was not, and an id that no request
    has. *)
Theorem release_never_raises_load (db : Db) (request_id : Z) (status : string) :
  status <> "active" ->
  let db' := snd (call (update_request_status request_id status) db) in
  (forall op, get_current_load db' op <= get_current_load db op)
  /\ (capacity_invariant db -> capacity_invariant db').
Proof.
  intros Hst db'.
  assert (Hle : forall op, get_current_load db' op <= get_current_load db op).
  { intros op. subst db'. rewrite call_update_request_status.
    destruct (query_request db request_id); cbn [snd]; [| lia].
    unfold get_current_load. cbn [apply_write requests].
    apply inj_le. now apply released_load_le. }
  split; [exact Hle |].
  intros Hinv op Hop.
  assert (Hops : operators db' = operators db).
  { subst db'. rewrite call_update_request_status.
    destruct (query_request db request_id); reflexivity. }
  rewrite Hops in Hop. specialize (Hinv op Hop). specialize (Hle op). lia.
Qed.

Lemma release_never_raises_load_witness :
  "closed" <> "active"
  /\ get_current_load (snd (call (update_request_status 1 "closed") full_db)) alice
     <= get_current_load full_db alice.
Proof.
  split; [discriminate |].
  exact (proj1 (release_never_raises_load full_db 1 "closed" ltac:(discriminate)) alice).
Defined.

Lemma released_load_exact (k request_id : Z) (status : string) (l : list Request.t) :
  status <> "active" ->
  NoDup (map Request.id l) ->
  forall request,
    In request l ->
    Request.id request = request_id ->
    is_active_request_of k request = true ->
    S (List.length (filter (is_active_request_of k) (map (set_status request_id status) l)))
    = List.length (filter (is_active_request_of k) l).
Proof.
  intros Hst Hnd request Hin Hid Hact.
  induction l as [| r l IH]; [contradiction |].
  cbn [map] in Hnd. apply NoDup_cons_iff in Hnd as [Hfresh Hnd].
  cbn [map filter]. destruct Hin as [-> | Hin].
  - rewrite Hact.
    assert (Enew : is_active_request_of k (set_status request_id status request) = false).
    { unfold is_active_request_of, set_status. rewrite Hid, Z.eqb_refl.
      cbn [Request.operator_id Request.status].
      apply andb_false_iff. right. now apply String.eqb_neq. }
    rewrite Enew. cbn [List.length]. f_equal. f_equal.
    assert (Hmap : map (set_status request_id status) l = map (fun r => r) l).
    { apply map_ext_in. intros r Hr. unfold set_status.
      destruct (Z.eqb_spec (Request.id r) request_id) as [Heq | _]; [| reflexivity].
      exfalso. apply Hfresh. rewrite Hid, <- Heq. now apply in_map. }
    rewrite Hmap, map_id. reflexivity.
  - assert (Hother : Request.id r <> request_id).
    { intros Heq. apply Hfresh. rewrite Heq, <- Hid. now apply in_map. }
    assert (Hsame : set_status request_id status r = r).
    { unfold set_status. destruct (Z.eqb_spec (Request.id r) request_id); congruence. }
    rewrite Hsame. specialize (IH Hnd Hin).
    destruct (is_active_request_of k r); cbn [List.length]; lia.
Qed.

(** X12.  When request ids are a key, giving an active request of an
    operator a status other than "active" lowers the load of that operator
    by exactly one. *)
Theorem release_lowers_load_by_one
        (db : Db) (request : Request.t) (request_id : Z) (status : string)
        (op : Operator.t) :
  NoDup (map Request.id (requests db)) ->
  query_request db request_id = Some request ->
  Request.operator_id request = Some (Operator.id op) ->
  Request.status request = "active" ->
  status <> "active" ->
  get_current_load (snd (call (update_request_status request_id status) db)) op
  = get_current_load db op - 1.
Proof.
  intros Hnd Hreq Hop Hact Hst.
  rewrite call_update_request_status, Hreq. cbn [snd].
  apply query_request_Some in Hreq as [Hin Hid].
  unfold get_current_load. cbn [apply_write requests].
  rewrite <- (released_load_exact (Operator.id op) request_id status (requests db)
                Hst Hnd request Hin Hid).
  - lia.
  - unfold is_active_request_of. rewrite Hop, Hact. cbn [opt_eqb].
    now rewrite Z.eqb_refl.
Qed.

Lemma release_lowers_load_by_one_witness :
  NoDup (map Request.id (requests full_db))
  /\ get_current_load (snd (call (update_request_status 1 "closed") full_db)) alice
     = get_current_load full_db alice - 1.
Proof.
  assert (Hnd : NoDup (map Request.id (requests full_db))).
  { cbn. constructor; [intros [] | constructor]. }
  split; [exact Hnd |].
  exact (release_lowers_load_by_one
           full_db (Request.mk 1 1 1 (Some 1) "active" None) 1 "closed" alice
           Hnd eq_refl eq_refl eq_refl ltac:(discriminate)).
Defined.

(** ** More on weight configuration *)


Lemma filter_other_source (source_id other : Z)
      (rows : list OperatorSourceWeight.t) :
  other <> source_id ->
  filter (fun w => OperatorSourceWeight.source_id w =? other)
         (filter (fun w => negb (OperatorSourceWeight.source_id w =? source_id)) rows)
  = filter (fun w => OperatorSourceWeight.source_id w =? other) rows.
Proof.
  intros Hother. induction rows as [| row rows IH]; [reflexivity |].
  cbn [filter].
  destruct (Z.eqb_spec (OperatorSourceWeight.source_id row) source_id) as [Heq | Hne];
    cbn [negb filter].
  - destruct (Z.eqb_spec (OperatorSourceWeight.source_id row) other);
      [congruence | exact IH].
  - rewrite IH. reflexivity.
Qed.

(** X14.  [configure_source_weights] replaces the rows of its own source
    only: whatever the outcome, the weight rows of every other source, the
    operators, the leads, the sources and the requests are as before. *)
Theorem configure_source_weights_touches_one_source
        (db : Db) (source_id : Z) (weights : list OperatorSourceWeightCreate.t) :
  let db' := snd (call (configure_source_weights source_id weights) db) in
  (forall other, other <> source_id -> query_weights db' other = query_weights db other)
  /\ operators db' = operators db
  /\ leads db' = leads db
  /\ sources db' = sources db
  /\ requests db' = requests db.
Proof.
  destruct (call (configure_source_weights source_id weights) db) as [[result | e] db']
    eqn:Ecall; cbn [snd].
  - apply call_configure_source_weights_stored in Ecall
      as (created & _ & _ & Hsrc & _ & Ho & Hl & Hs & Hr & Hw).
    repeat split; try assumption.
    intros other Hother. unfold query_weights. rewrite Hw, filter_app.
    assert (Hnone : filter (fun w => OperatorSourceWeight.source_id w =? other) created = []).
    { clear - Hsrc Hother. induction Hsrc as [| row created Hrow _ IH]; [reflexivity |].
      cbn [filter]. rewrite Hrow.
      destruct (Z.eqb_spec source_id other); [congruence | exact IH]. }
    rewrite Hnone, app_nil_r. now apply filter_other_source.
  - destruct (call_configure_source_weights_cases db source_id weights)
      as [(e' & Heq & _) | (result & created & db'' & Heq & _)];
      rewrite Ecall in Heq; [| discriminate].
    injection Heq as _ ->. repeat split.
Qed.

Lemma call_get_source_weights (db : Db) (source_id : Z) :
  call (get_source_weights source_id) db
  = (match query_source db source_id with
     | None => Raise (HTTPException 404 "Source not found")
     | Some _ => fst (weight_responses (query_weights db source_id) (open_session db))
     end, db).
Proof.
  unfold call, get_source_weights.
  cbv beta iota zeta delta [bind query raise open_session].
  cbn [view pending store fold_left].
  destruct (query_source db source_id); [| reflexivity].
  cbn [view pending store fold_left].
  destruct (weight_responses_run (query_weights db source_id) (mkSession db []))
    as [Hsnd _].
  destruct (weight_responses (query_weights db source_id) (mkSession db [])) as [o s].
  cbn [fst snd] in *. subst s. reflexivity.
Qed.

Lemma configure_source_weights_answer (db db' : Db) (source_id : Z)
      (weights : list OperatorSourceWeightCreate.t)
      (result : list OperatorSourceWeightResponse.t) :
  call (configure_source_weights source_id weights) db = (Return result, db') ->
  exists created,
    map stored_pair created = map submitted_pair weights
    /\ Forall (fun row => OperatorSourceWeight.source_id row = source_id) created
    /\ operator_source_weights db'
       = (filter (fun w => negb (OperatorSourceWeight.source_id w =? source_id))
                 (operator_source_weights db) ++ created)%list
    /\ fst (weight_responses created (open_session db')) = Return result.
Proof.
  unfold call, configure_source_weights.
  cbv beta iota zeta delta [bind query raise execute commit open_session].
  cbn [view pending store fold_left app].
  destruct (query_source db source_id) as [src |]; [| discriminate].
  cbn [pending store app].
  set (s0 := mkSession db [DeleteWeights source_id]).
  destruct (configure_loop_run source_id weights s0) as [Hstore Hloop].
  destruct (configure_loop source_id weights s0) as [[created | e] s1];
    cbn [fst snd] in Hstore, Hloop.
  - destruct Hloop as (Hpend & Hpairs & Hsrc & _).
    destruct s1 as [st1 p1]. unfold view, s0 in *.
    cbn [pending store app fold_left] in *. subst st1 p1.
    cbn [fold_left].
    set (db1 := fold_left apply_write (map InsertWeight created)
                          (apply_write db (DeleteWeights source_id))).
    destruct (inserted_weights created (apply_write db (DeleteWeights source_id)))
      as (_ & _ & _ & _ & Hw). fold db1 in Hw.
    cbn [apply_write operator_source_weights] in Hw.
    destruct (weight_responses_run created (mkSession db1 [])) as [Hsnd _].
    destruct (weight_responses created (mkSession db1 [])) as [o s2] eqn:Eresp.
    cbn [fst snd] in Hsnd. subst s2. cbn [store].
    intros H. injection H as -> <-.
    exists created. split; [exact Hpairs |]. split; [exact Hsrc |]. split; [exact Hw |].
    unfold open_session. fold db1. rewrite Eresp. reflexivity.
  - destruct s1. discriminate.
Qed.

(** X15.  [get_source_weights] right after a [configure_source_weights]
    that returned gives back the same list of responses. *)
Theorem configure_source_weights_then_get_source_weights
        (db db' : Db) (source_id : Z) (weights : list OperatorSourceWeightCreate.t)
        (result : list OperatorSourceWeightResponse.t) :
  call (configure_source_weights source_id weights) db = (Return result, db') ->
  call (get_source_weights source_id) db' = (Return result, db').
Proof.
  intros Hcall.
  pose proof (call_configure_source_weights_stored _ _ _ _ _ Hcall)
    as (_ & Hsrc & _ & _ & _ & _ & _ & Hs & _).
  apply configure_source_weights_answer in Hcall as (created & _ & Hown & Hw & Hresp).
  rewrite call_get_source_weights.
  assert (Hsrc' : query_source db' source_id <> None).
  { unfold query_source in *. now rewrite Hs. }
  destruct (query_source db' source_id); [| congruence].
  assert (Hq : query_weights db' source_id = created).
  { unfold query_weights. rewrite Hw, filter_app, filter_none, app_nil_l.
    apply filter_all. eapply Forall_impl; [| exact Hown].
    intros row Hrow. now apply Z.eqb_eq. }
  rewrite Hq, Hresp. reflexivity.
Qed.

Lemma configure_source_weights_then_get_source_weights_witness :
  exists result db',
    call (configure_source_weights 1 [OperatorSourceWeightCreate.mk 2 9]) example_db
    = (Return result, db')
    /\ call (get_source_weights 1) db' = (Return result, db').
Proof.
  destruct (call (configure_source_weights 1 [OperatorSourceWeightCreate.mk 2 9])
                 example_db) as [o db'] eqn:Ecall.
  assert (Hret : exists result, o = Return result).
  { vm_compute in Ecall. injection Ecall as <- _. eexists; reflexivity. }
  destruct Hret as [result ->].
  exists result, db'. split; [reflexivity |].
  exact (configure_source_weights_then_get_source_weights _ _ _ _ _ Ecall).
Defined.

(** X16.  Configuring an existing source with the empty list succeeds and
    leaves the source without weight rows; from then on no operator is
    assigned for that source, whatever the draw. *)
Theorem configure_source_weights_empty_list (db : Db) (source_id : Z) :
  query_source db source_id <> None ->
  exists db',
    call (configure_source_weights source_id []) db = (Return [], db')
    /\ query_weights db' source_id = []
    /\ forall rnd, assign_operator_to_request db' source_id rnd = Return None.
Proof.
  intros Hsrc.
  destruct (call (configure_source_weights source_id []) db) as [[result | e] db']
    eqn:Ecall.
  - apply configure_source_weights_answer in Ecall
      as (created & Hpairs & _ & Hw & Hresp).
    destruct created; [| discriminate].
    cbn in Hresp. injection Hresp as <-.
    assert (Hq : query_weights db' source_id = []).
    { unfold query_weights. rewrite Hw, app_nil_r. apply filter_none. }
    exists db'. split; [reflexivity |]. split; [exact Hq |].
    intros rnd. unfold assign_operator_to_request, get_available_operators.
    rewrite Hq. reflexivity.
  - exfalso.
    destruct (call_configure_source_weights_cases db source_id [])
      as [(e' & _ & Hcase) | (result & created & db'' & Heq & _)].
    + destruct Hcase as [[_ Hnone] | (_ & wd & [] & _)]. exact (Hsrc Hnone).
    + rewrite Ecall in Heq. discriminate.
Qed.

Lemma configure_source_weights_empty_list_witness :
  query_source example_db 1 <> None
  /\ exists db',
      call (configure_source_weights 1 []) example_db = (Return [], db')
      /\ query_weights db' 1 = []
      /\ forall rnd, assign_operator_to_request db' 1 rnd = Return None.
Proof.
  split; [discriminate |].
  exact (configure_source_weights_empty_list example_db 1 ltac:(discriminate)).
Defined.

(** ** Listing requests *)

Lemma call_list_requests (db : Db) (source_id operator_id : option Z) :
  call (list_requests source_id operator_id) db
  = (Return (map (request_response db)
                 (list_requests_query db source_id operator_id)), db).
Proof. reflexivity. Qed.

Lemma source_filter_In (source_id : option Z) (l : list Request.t)
      (req : Request.t) :
  In req (if truthy source_id
          then filter (fun r => opt_eqb source_id (Request.source_id r)) l
          else l)
  <-> In req l
      /\ (forall k, source_id = Some k -> k <> 0 -> Request.source_id req = k).
Proof.
  destruct source_id as [s |]; cbn [truthy].
  - destruct (Z.eqb_spec s 0) as [-> | Hs]; cbn [negb].
    + split; [intros Hin | tauto]. split; [exact Hin |].
      intros k Hk Hk0. congruence.
    + rewrite filter_In. cbn [opt_eqb]. rewrite Z.eqb_eq. split.
      * intros [Hin Heq]. split; [exact Hin |]. intros k Hk _. congruence.
      * intros [Hin Hall]. split; [exact Hin |]. symmetry. now apply Hall.
  - split; [intros Hin | tauto]. split; [exact Hin |]. discriminate.
Qed.

Lemma operator_filter_In (operator_id : option Z) (l : list Request.t)
      (req : Request.t) :
  In req (if truthy operator_id
          then filter (fun r => match operator_id with
                                | Some k => opt_eqb (Request.operator_id r) k
                                | None => false
                                end) l
          else l)
  <-> In req l
      /\ (forall k, operator_id = Some k -> k <> 0 ->
                    Request.operator_id req = Some k).
Proof.
  destruct operator_id as [o |]; cbn [truthy].
  - destruct (Z.eqb_spec o 0) as [-> | Ho]; cbn [negb].
    + split; [intros Hin | tauto]. split; [exact Hin |].
      intros k Hk Hk0. congruence.
    + rewrite filter_In. split.
      * intros [Hin Heq]. split; [exact Hin |]. intros k Hk _. injection Hk as <-.
        destruct (Request.operator_id req) as [i |]; cbn [opt_eqb] in Heq;
          [| discriminate].
        apply Z.eqb_eq in Heq. congruence.
      * intros [Hin Hall]. split; [exact Hin |].
        rewrite (Hall o eq_refl Ho). cbn [opt_eqb]. apply Z.eqb_refl.
  - split; [intros Hin | tauto]. split; [exact Hin |]. discriminate.
Qed.

(** X17.  [list_requests] answers with the responses of exactly the request
    rows that pass its filters, where a filter is in force only for a
    parameter that is an integer other than 0: with [source_id=0] or
    [operator_id=0] that filter is not applied. *)
Theorem list_requests_filters (db : Db) (source_id operator_id : option Z)
        (response : RequestResponse.t) :
  (exists result,
      call (list_requests source_id operator_id) db = (Return result, db)
      /\ (In response result
          <-> exists req,
              In req (requests db)
              /\ response = request_response db req
              /\ (forall k, source_id = Some k -> k <> 0 -> Request.source_id req = k)
              /\ (forall k, operator_id = Some k -> k <> 0 ->
                            Request.operator_id req = Some k)))
  /\ call (list_requests (Some 0) operator_id) db
     = call (list_requests None operator_id) db
  /\ call (list_requests source_id (Some 0)) db
     = call (list_requests source_id None) db.
Proof.
  split; [| split; reflexivity].
  rewrite call_list_requests. eexists. split; [reflexivity |].
  rewrite in_map_iff.
  assert (Hq : forall req,
             In req (list_requests_query db source_id operator_id)
             <-> In req (requests db)
                 /\ (forall k, source_id = Some k -> k <> 0 -> Request.source_id req = k)
                 /\ (forall k, operator_id = Some k -> k <> 0 ->
                               Request.operator_id req = Some k)).
  { intros req. unfold list_requests_query.
    rewrite operator_filter_In, source_filter_In. tauto. }
  split.
  - intros (req & <- & Hin). apply Hq in Hin as (Hin & Hs & Ho). exists req. auto.
  - intros (req & Hin & -> & Hs & Ho). exists req. split; [reflexivity |].
    apply Hq. auto.
Qed.

Lemma request_response_operators (db1 db2 : Db) (req : Request.t) :
  operators db1 = operators db2 ->
  request_response db1 req = request_response db2 req.
Proof.
  intros Ho. unfold request_response, operator_name_of.
  destruct (Request.operator_id req) as [k |]; [| reflexivity].
  now rewrite (query_operator_operators db1 db2 k Ho).
Qed.

Lemma request_response_of_new_row (db : Db) (request_data : RequestCreate.t)
      (rnd : Q) (a : option Operator.t) :
  assign_operator_to_request db (RequestCreate.source_id request_data) rnd = Return a ->
  request_response db (request_row db request_data a)
  = response_of (request_row db request_data a) a.
Proof.
  intros Ha. unfold request_response, response_of. f_equal.
  unfold operator_name_of. cbn [request_row Request.operator_id].
  destruct a as [op |]; [| reflexivity]. cbn [option_map].
  apply assign_operator_to_request_sound in Ha as (wrow & _ & _ & Hq & _).
  apply query_operator_Some in Hq as Hq'. destruct Hq' as [_ Hid].
  rewrite Hid, Hq. reflexivity.
Qed.

(** X18.  The unfiltered [list_requests] after a [create_request] that
    returned is the list before it followed by the answer of that
    [create_request]. *)
Theorem create_request_then_list_requests
        (db db' : Db) (request_data : RequestCreate.t) (rnd : Q)
        (response : RequestResponse.t) :
  call (create_request request_data rnd) db = (Return response, db') ->
  exists before,
    call (list_requests None None) db = (Return before, db)
    /\ call (list_requests None None) db'
       = (Return (before ++ [response])%list, db').
Proof.
  intros Hcall.
  apply call_create_request_Return in Hcall as (a & _ & Ha & -> & ->).
  destruct (after_create_request_tables db request_data a) as (Ho & _ & _ & Hr).
  eexists. split; [apply call_list_requests |].
  rewrite call_list_requests. f_equal. f_equal.
  unfold list_requests_query. cbn [truthy]. rewrite Hr, map_app. cbn [map].
  f_equal.
  - apply map_ext. intros req. now apply request_response_operators.
  - f_equal. rewrite (request_response_operators _ db _ Ho).
    eapply request_response_of_new_row. exact Ha.
Qed.

Lemma create_request_then_list_requests_witness :
  exists response db' before,
    call (create_request example_request 0) example_db = (Return response, db')
    /\ call (list_requests None None) example_db = (Return before, example_db)
    /\ call (list_requests None None) db' = (Return (before ++ [response])%list, db').
Proof.
  destruct (call (create_request example_request 0) example_db)
    as [o db'] eqn:Ecall.
  assert (Hret : exists response, o = Return response).
  { vm_compute in Ecall. injection Ecall as <- _. eexists; reflexivity. }
  destruct Hret as [response ->].
  destruct (create_request_then_list_requests
              example_db db' example_request 0 response Ecall)
    as (before & Hbefore & Hafter).
  exists response, db', before. split; [reflexivity |]. split; assumption.
Defined.

(** ** Distribution statistics *)

Lemma increment_keys (k : Z) (stats : list OperatorCount.t) :
  map OperatorCount.operator_id (increment k stats)
  = map OperatorCount.operator_id stats.
Proof.
  unfold increment. rewrite map_map. apply map_ext. intros e.
  destruct (OperatorCount.operator_id e =? k); reflexivity.
Qed.

Lemma has_key_keys (k : Z) (stats : list OperatorCount.t) :
  has_key k stats = true <-> In k (map OperatorCount.operator_id stats).
Proof.
  unfold has_key. rewrite existsb_exists, in_map_iff. split.
  - intros (e & He & Hk). apply Z.eqb_eq in Hk. exists e. auto.
  - intros (e & Hk & He). exists e. split; [exact He | now apply Z.eqb_eq].
Qed.

Lemma count_of_absent (k : Z) (stats : list OperatorCount.t) :
  ~ In k (map OperatorCount.operator_id stats) -> count_of k stats = 0.
Proof.
  induction stats as [| e stats IH]; intros Hnot; [reflexivity |].
  cbn [count_of fold_right]. fold (count_of k stats).
  destruct (Z.eqb_spec (OperatorCount.operator_id e) k) as [Heq | _].
  - exfalso. apply Hnot. left. exact Heq.
  - apply IH. intros Hin. apply Hnot. now right.
Qed.

Lemma count_of_increment_other (j k : Z) (stats : list OperatorCount.t) :
  j <> k -> count_of j (increment k stats) = count_of j stats.
Proof.
  intros Hjk. induction stats as [| e stats IH]; [reflexivity |].
  cbn [increment map count_of fold_right].
  fold (increment k stats). fold (count_of j (increment k stats)).
  fold (count_of j stats). rewrite IH.
  destruct (Z.eqb_spec (OperatorCount.operator_id e) k) as [Heq | Hne];
    cbn [OperatorCount.operator_id OperatorCount.request_count]; [| reflexivity].
  destruct (Z.eqb_spec (OperatorCount.operator_id e) j); [congruence | reflexivity].
Qed.

Lemma count_of_increment_absent (k : Z) (stats : list OperatorCount.t) :
  ~ In k (map OperatorCount.operator_id stats) -> increment k stats = stats.
Proof.
  intros Hnot. unfold increment. rewrite <- (map_id stats) at 2.
  apply map_ext_in. intros e He.
  destruct (Z.eqb_spec (OperatorCount.operator_id e) k) as [Heq | _]; [| reflexivity].
  exfalso. apply Hnot. rewrite <- Heq. now apply in_map.
Qed.

Lemma count_of_increment_same (k : Z) (stats : list OperatorCount.t) :
  NoDup (map OperatorCount.operator_id stats) ->
  In k (map OperatorCount.operator_id stats) ->
  count_of k (increment k stats) = count_of k stats + 1.
Proof.
  induction stats as [| e stats IH]; intros Hnd Hin; [contradiction |].
  cbn [map] in Hnd. apply NoDup_cons_iff in Hnd as [Hfresh Hnd].
  cbn [increment map count_of fold_right].
  fold (increment k stats). fold (count_of k (increment k stats)).
  fold (count_of k stats).
  destruct (Z.eqb_spec (OperatorCount.operator_id e) k) as [Heq | Hne];
    cbn [OperatorCount.operator_id OperatorCount.request_count].
  - rewrite Heq, Z.eqb_refl.
    rewrite count_of_increment_absent by (rewrite <- Heq; exact Hfresh). lia.
  - destruct (Z.eqb_spec (OperatorCount.operator_id e) k); [congruence |].
    apply IH; [exact Hnd |]. destruct Hin as [Heq | Hin]; [congruence | exact Hin].
Qed.

Lemma count_of_app (k : Z) (stats : list OperatorCount.t) (e : OperatorCount.t) :
  count_of k (stats ++ [e])
  = count_of k stats
    + (if OperatorCount.operator_id e =? k then OperatorCount.request_count e else 0).
Proof.
  induction stats as [| h stats IH]; cbn [app count_of fold_right].
  - destruct (OperatorCount.operator_id e =? k); lia.
  - fold (count_of k (stats ++ [e])). fold (count_of k stats). rewrite IH.
    destruct (OperatorCount.operator_id h =? k); lia.
Qed.

Lemma count_of_entry (stats : list OperatorCount.t) (e : OperatorCount.t) :
  NoDup (map OperatorCount.operator_id stats) ->
  In e stats ->
  count_of (OperatorCount.operator_id e) stats = OperatorCount.request_count e.
Proof.
  induction stats as [| h stats IH]; intros Hnd Hin; [contradiction |].
  cbn [map] in Hnd. apply NoDup_cons_iff in Hnd as [Hfresh Hnd].
  cbn [count_of fold_right]. fold (count_of (OperatorCount.operator_id e) stats).
  destruct Hin as [-> | Hin].
  - rewrite Z.eqb_refl, count_of_absent by exact Hfresh. lia.
  - destruct (Z.eqb_spec (OperatorCount.operator_id h) (OperatorCount.operator_id e))
      as [Heq | _].
    + exfalso. apply Hfresh. rewrite Heq. now apply in_map.
    + now apply IH.
Qed.

Lemma counts_for_cases (k : Z) (r : Request.t) :
  counts_for k r = true <-> Request.operator_id r = Some k /\ k <> 0.
Proof.
  unfold counts_for, truthy.
  destruct (Request.operator_id r) as [i |]; cbn [opt_eqb].
  - rewrite andb_true_iff, negb_true_iff, Z.eqb_neq, Z.eqb_eq. split.
    + intros [Hi ->]. auto.
    + intros [Heq Hk]. injection Heq as ->. auto.
  - cbn [andb]. split; [discriminate | intros [H _]; discriminate].
Qed.

(** The counting loop from a dictionary with distinct keys: it returns when
    the operators of the requests exist, keeps the keys distinct, and adds
    to the count of each operator the number of requests that count for
    it. *)
Lemma count_loop_spec (db : Db) (reqs : list Request.t) :
  (forall r k, In r reqs -> Request.operator_id r = Some k ->
               query_operator db k <> None) ->
  forall stats,
    NoDup (map OperatorCount.operator_id stats) ->
    exists stats',
      count_loop db reqs stats = Return stats'
      /\ NoDup (map OperatorCount.operator_id stats')
      /\ (forall k, count_of k stats'
                    = count_of k stats
                      + Z.of_nat (List.length (filter (counts_for k) reqs)))
      /\ (forall k, In k (map OperatorCount.operator_id stats')
                    <-> In k (map OperatorCount.operator_id stats)
                        \/ exists r, In r reqs /\ counts_for k r = true).
Proof.
  induction reqs as [| req reqs IH]; intros Hfk stats Hnd.
  - exists stats. cbn. repeat split; try assumption; try lia.
    + intros H; now left.
    + intros [H | (r & [] & _)]; exact H.
  - assert (Hfk' : forall r k, In r reqs -> Request.operator_id r = Some k ->
                               query_operator db k <> None)
      by (intros r k Hr; apply Hfk; now right).
    cbn [count_loop].
    destruct (Request.operator_id req) as [i |] eqn:Ei; cbn [truthy].
    2:{ destruct (IH Hfk' stats Hnd) as (stats' & Hrun & Hnd' & Hcount & Hkeys).
        exists stats'. split; [exact Hrun |]. split; [exact Hnd' |].
        assert (Hno : forall k, counts_for k req = false).
        { intros k. unfold counts_for. rewrite Ei. reflexivity. }
        split.
        - intros k. cbn [filter]. rewrite Hno. apply Hcount.
        - intros k. rewrite Hkeys. split; intros [H | (r & Hr & Hc)]; auto.
          + right. exists r. split; [now right | exact Hc].
          + destruct Hr as [<- | Hr]; [rewrite Hno in Hc; discriminate |].
            right. exists r. auto. }
    destruct (Z.eqb_spec i 0) as [-> | Hi0]; cbn [negb].
    { destruct (IH Hfk' stats Hnd) as (stats' & Hrun & Hnd' & Hcount & Hkeys).
      exists stats'. split; [exact Hrun |]. split; [exact Hnd' |].
      assert (Hno : forall k, counts_for k req = false).
      { intros k. unfold counts_for. rewrite Ei. reflexivity. }
      split.
      - intros k. cbn [filter]. rewrite Hno. apply Hcount.
      - intros k. rewrite Hkeys. split; intros [H | (r & Hr & Hc)]; auto.
        + right. exists r. split; [now right | exact Hc].
        + destruct Hr as [<- | Hr]; [rewrite Hno in Hc; discriminate |].
          right. exists r. auto. }
    assert (Hreq : forall k, counts_for k req = (i =? k)).
    { intros k. unfold counts_for. rewrite Ei. cbn [truthy opt_eqb].
      destruct (Z.eqb_spec i 0); [congruence | reflexivity]. }
    assert (Hstep : forall stats1,
               NoDup (map OperatorCount.operator_id stats1) ->
               In i (map OperatorCount.operator_id stats1) ->
               (forall k, count_of k stats1 = count_of k stats) ->
               (forall k, In k (map OperatorCount.operator_id stats1)
                          <-> In k (map OperatorCount.operator_id stats) \/ k = i) ->
               exists stats',
                 count_loop db reqs (increment i stats1) = Return stats'
                 /\ NoDup (map OperatorCount.operator_id stats')
                 /\ (forall k, count_of k stats'
                               = count_of k stats
                                 + Z.of_nat (List.length (filter (counts_for k) (req :: reqs))))
                 /\ (forall k, In k (map OperatorCount.operator_id stats')
                               <-> In k (map OperatorCount.operator_id stats)
                                   \/ exists r, In r (req :: reqs) /\ counts_for k r = true)).
    { intros stats1 Hnd1 Hin1 Hc1 Hk1.
      destruct (IH Hfk' (increment i stats1)) as (stats' & Hrun & Hnd' & Hcount & Hkeys).
      { now rewrite increment_keys. }
      exists stats'. split; [exact Hrun |]. split; [exact Hnd' |]. split.
      - intros k. rewrite Hcount. cbn [filter]. rewrite Hreq.
        destruct (Z.eqb_spec i k) as [<- | Hik].
        + rewrite count_of_increment_same by assumption. rewrite Hc1.
          cbn [List.length]. lia.
        + rewrite count_of_increment_other by congruence. now rewrite Hc1.
      - intros k. rewrite Hkeys, increment_keys, Hk1. split.
        + intros [[H | ->] | (r & Hr & Hc)]; auto.
          * right. exists req. split; [now left |]. rewrite Hreq. apply Z.eqb_refl.
          * right. exists r. split; [now right | exact Hc].
        + intros [H | (r & [<- | Hr] & Hc)]; auto.
          * left. right. rewrite Hreq in Hc. apply Z.eqb_eq in Hc. congruence.
          * right. exists r. auto. }
    destruct (has_key i stats) eqn:Ekey.
    + apply has_key_keys in Ekey.
      apply (Hstep stats Hnd Ekey); [reflexivity |].
      intros k. split; [auto | intros [H | ->]; assumption].
    + assert (Hnot : ~ In i (map OperatorCount.operator_id stats)).
      { intros Hin. apply has_key_keys in Hin. congruence. }
      destruct (query_operator db i) as [op |] eqn:Eop.
      2:{ exfalso. exact (Hfk req i (or_introl eq_refl) Ei Eop). }
      apply Hstep.
      * rewrite map_app. apply NoDup_app; [exact Hnd | |].
        -- cbn. constructor; [intros [] | constructor].
        -- intros k Hk [<- | []]. exact (Hnot Hk).
      * rewrite map_app. apply in_or_app. right. now left.
      * intros k. rewrite count_of_app.
        cbn [OperatorCount.operator_id OperatorCount.request_count].
        destruct (i =? k); lia.
      * intros k. rewrite map_app, in_app_iff. cbn. split.
        -- intros [H | [H | []]]; auto.
        -- intros [H | ->]; auto.
Qed.

Lemma statistics_loop_spec (db : Db) (all_sources : list Source.t) :
  requests_reference_operators db ->
  exists result,
    statistics_loop db all_sources = Return result
    /\ map DistributionStats.source_id result = map Source.id all_sources
    /\ map DistributionStats.source_name result = map Source.name all_sources
    /\ Forall (statistics_entry_sound db) result.
Proof.
  intros Hfk. induction all_sources as [| source rest IH].
  - exists []. cbn. repeat split. constructor.
  - destruct IH as (result & Hrun & Hids & Hnames & Hall).
    cbn [statistics_loop].
    destruct (count_loop_spec db (source_requests db source)) with (stats := @nil OperatorCount.t)
      as (stats & Hcount & Hnd & Hcounts & Hkeys).
    { intros r k Hr. apply Hfk. unfold source_requests in Hr.
      now apply filter_In in Hr as [Hr _]. }
    { constructor. }
    rewrite Hcount, Hrun. eexists. split; [reflexivity |].
    cbn [map DistributionStats.source_id DistributionStats.source_name].
    rewrite Hids, Hnames. repeat split.
    constructor; [| exact Hall].
    unfold statistics_entry_sound.
    cbn [DistributionStats.source_id DistributionStats.total_requests
         DistributionStats.operators].
    fold (source_requests db source).
    split; [reflexivity |]. split; [exact Hnd |]. split.
    + intros entry Hentry.
      pose proof (count_of_entry stats entry Hnd Hentry) as Hc.
      rewrite Hcounts in Hc. cbn [count_of fold_right] in Hc.
      split; [| lia].
      assert (Hin : In (OperatorCount.operator_id entry)
                       (map OperatorCount.operator_id stats)) by now apply in_map.
      apply Hkeys in Hin as [[] | (r & Hr & Hfor)].
      assert (Hne : In r (filter (counts_for (OperatorCount.operator_id entry))
                                 (source_requests db source)))
        by (apply filter_In; auto).
      destruct (filter (counts_for (OperatorCount.operator_id entry))
                       (source_requests db source)); [contradiction |].
      cbn [List.length] in Hc. lia.
    + intros r k Hr Hop Hk. apply Hkeys. right. exists r. split; [exact Hr |].
      apply counts_for_cases. auto.
Qed.

(** X19.  When every request's operator exists,
    [get_distribution_statistics] returns one entry per source, in order.
    In each entry [total_requests] is the number of requests of the source;
    each operator appears at most once, with a [request_count] that is
    positive and equal to the number of the source's requests whose
    [operator_id] is that operator's; and every operator other than id 0 that
    a request of the source is assigned to appears. *)
Theorem get_distribution_statistics_counts (db : Db) :
  requests_reference_operators db ->
  exists result,
    call get_distribution_statistics db = (Return result, db)
    /\ map DistributionStats.source_id result = map Source.id (sources db)
    /\ map DistributionStats.source_name result = map Source.name (sources db)
    /\ forall st, In st result -> statistics_entry_sound db st.
Proof.
  intros Hfk.
  destruct (statistics_loop_spec db (sources db) Hfk)
    as (result & Hrun & Hids & Hnames & Hall).
  exists result. split.
  - unfold call, get_distribution_statistics, lift, open_session, view.
    cbn [pending store fold_left]. rewrite Hrun. reflexivity.
  - split; [exact Hids |]. split; [exact Hnames |]. now apply Forall_forall.
Qed.

Lemma get_distribution_statistics_counts_witness :
  requests_reference_operators full_db
  /\ exists result,
      call get_distribution_statistics full_db = (Return result, full_db)
      /\ map DistributionStats.source_id result = [1].
Proof.
  assert (Hfk : requests_reference_operators full_db).
  { intros r k [<- | []] Hk. injection Hk as <-. discriminate. }
  split; [exact Hfk |].
  destruct (get_distribution_statistics_counts full_db Hfk)
    as (result & Hcall & Hids & _).
  exists result. split; assumption.
Defined.

(** X20.  After a [create_request] that assigned operator [k],
    [get_operator_statistics] for [k] and the request's source reports one
    more total request and one more unit of current load than before, with
    the same name and maximum load. *)
Theorem create_request_then_get_operator_statistics
        (db db' : Db) (request_data : RequestCreate.t) (rnd : Q)
        (response : RequestResponse.t) (k : Z) :
  call (create_request request_data rnd) db = (Return response, db') ->
  RequestResponse.operator_id response = Some k ->
  let source_id := RequestCreate.source_id request_data in
  let before := get_operator_statistics db k source_id in
  let after := get_operator_statistics db' k source_id in
  OperatorStatistics.total_requests after = OperatorStatistics.total_requests before + 1
  /\ OperatorStatistics.current_load after = OperatorStatistics.current_load before + 1
  /\ OperatorStatistics.operator_name after = OperatorStatistics.operator_name before
  /\ OperatorStatistics.max_load after = OperatorStatistics.max_load before.
Proof.
  intros Hcall Hk.
  apply call_create_request_Return in Hcall as (a & _ & Ha & -> & ->).
  destruct (after_create_request_tables db request_data a) as (Ho & _ & _ & Hr).
  cbn [response_of request_row RequestResponse.operator_id Request.operator_id] in Hk.
  destruct a as [op |]; [| discriminate]. cbn [option_map] in Hk. injection Hk as Hid.
  apply assign_operator_to_request_sound in Ha as (wrow & _ & _ & Hq & _).
  apply query_operator_Some in Hq as Hq'. destruct Hq' as [_ Hrow].
  assert (Hfound : query_operator db k = Some op) by (rewrite <- Hid, Hrow; exact Hq).
  cbv zeta. unfold get_operator_statistics.
  rewrite (query_operator_operators _ db k Ho), Hfound.
  cbn [OperatorStatistics.total_requests OperatorStatistics.current_load
       OperatorStatistics.operator_name OperatorStatistics.max_load].
  split; [| split; [| split; reflexivity]].
  - rewrite Hr, filter_app, length_app. cbn [filter]. unfold request_row.
    cbn [Request.operator_id Request.source_id option_map opt_eqb].
    rewrite Hid, !Z.eqb_refl. cbn [andb List.length]. lia.
  - rewrite (get_current_load_insert db _ _ op Hr).
    unfold is_active_request_of, request_row.
    cbn [Request.operator_id Request.status option_map opt_eqb].
    rewrite Z.eqb_refl. reflexivity.
Qed.

Lemma create_request_then_get_operator_statistics_witness :
  exists response db',
    call (create_request example_request 0) example_db = (Return response, db')
    /\ RequestResponse.operator_id response = Some 1
    /\ OperatorStatistics.total_requests (get_operator_statistics db' 1 1)
       = OperatorStatistics.total_requests (get_operator_statistics example_db 1 1) + 1.
Proof.
  destruct (call (create_request example_request 0) example_db)
    as [o db'] eqn:Ecall.
  assert (Hret : exists response,
             o = Return response /\ RequestResponse.operator_id response = Some 1).
  { vm_compute in Ecall. injection Ecall as <- _. eexists; split; reflexivity. }
  destruct Hret as (response & -> & Hop).
  exists response, db'. split; [reflexivity |]. split; [exact Hop |].
  exact (proj1 (create_request_then_get_operator_statistics
                  example_db db' example_request 0 response 1 Ecall Hop)).
Defined.

(** ** Operators and sources *)

Lemma call_get_operator (db : Db) (operator_id : Z) :
  call (get_operator operator_id) db
  = (match query_operator db operator_id with
     | None => Raise (HTTPException 404 "Operator not found")
     | Some op => Return (operator_response db op)
     end, db).
Proof.
  unfold call, get_operator.
  cbv beta iota zeta delta [bind query raise open_session].
  cbn [view pending store fold_left].
  destruct (query_operator db operator_id); reflexivity.
Qed.

Lemma call_get_source (db : Db) (source_id : Z) :
  call (get_source source_id) db
  = (match query_source db source_id with
     | None => Raise (HTTPException 404 "Source not found")
     | Some s => Return s
     end, db).
Proof.
  unfold call, get_source.
  cbv beta iota zeta delta [bind query raise ret open_session].
  cbn [view pending store fold_left].
  destruct (query_source db source_id); reflexivity.
Qed.

Lemma call_create_operator (db : Db) (operator : OperatorCreate.t) :
  Admin.call (Admin.create_operator operator) db
  = (Return (operator_response
               (Admin.apply_statement db (Admin.InsertOperator (new_operator db operator)))
               (new_operator db operator)),
     Admin.apply_statement db (Admin.InsertOperator (new_operator db operator))).
Proof. reflexivity. Qed.

Lemma new_operator_fresh (db : Db) (operator : OperatorCreate.t) :
  forall o, In o (operators db) ->
            Operator.id o <> Operator.id (new_operator db operator).
Proof.
  intros o Ho. cbn [new_operator Operator.id].
  pose proof (next_id_fresh (map Operator.id (operators db)) (Operator.id o)
                (in_map Operator.id _ _ Ho)).
  lia.
Qed.


Lemma call_update_operator (db : Db) (operator_id : Z)
      (operator_update : OperatorUpdate.t) :
  Admin.call (Admin.update_operator operator_id operator_update) db
  = match query_operator db operator_id with
    | None => (Raise (HTTPException 404 "Operator not found"), db)
    | Some operator =>
        let db' := Admin.apply_statement
                     db (Admin.UpdateOperator
                           (updated_operator operator operator_update)) in
        (Return (operator_response db' (updated_operator operator operator_update)),
         db')
    end.
Proof.
  unfold Admin.call, Admin.update_operator.
  cbv beta iota zeta delta [Admin.bind Admin.query Admin.raise].
  cbn [Admin.view Admin.pending Admin.store fold_left].
  destruct (query_operator db operator_id); reflexivity.
Qed.

Lemma find_replace_operator (row : Operator.t) (j : Z) (l : list Operator.t) :
  find (fun o => Operator.id o =? j) (map (Admin.replace_operator row) l)
  = option_map (Admin.replace_operator row) (find (fun o => Operator.id o =? j) l).
Proof.
  induction l as [| o l IH]; [reflexivity |].
  cbn [map find].
  assert (Hid : Operator.id (Admin.replace_operator row o) = Operator.id o).
  { unfold Admin.replace_operator.
    destruct (Z.eqb_spec (Operator.id o) (Operator.id row)); congruence. }
  rewrite Hid. destruct (Operator.id o =? j); [reflexivity | exact IH].
Qed.

Lemma replace_operator_ids (row : Operator.t) (l : list Operator.t) :
  map Operator.id (map (Admin.replace_operator row) l) = map Operator.id l.
Proof.
  rewrite map_map. apply map_ext. intros o. unfold Admin.replace_operator.
  destruct (Z.eqb_spec (Operator.id o) (Operator.id row)); congruence.
Qed.

(** X22.  [update_operator] raises, with 404 and without a change, exactly
    when no operator has the id.  When it returns, the operator found under
    the id carries the submitted fields and keeps the others; [get_operator]
    gives the same answer; operators under other ids, the list of operator
    ids, all loads and the other tables are as before, so the ids stay
    distinct and the weight table stays consistent. *)
Theorem update_operator_effect
        (db : Db) (operator_id : Z) (operator_update : OperatorUpdate.t) :
  (query_operator db operator_id = None ->
   Admin.call (Admin.update_operator operator_id operator_update) db
   = (Raise (HTTPException 404 "Operator not found"), db))
  /\ (forall response db',
         Admin.call (Admin.update_operator operator_id operator_update) db
         = (Return response, db') ->
         exists operator,
           query_operator db operator_id = Some operator
           /\ query_operator db' operator_id
              = Some (updated_operator operator operator_update)
           /\ call (get_operator operator_id) db' = (Return response, db')
           /\ (forall j, j <> operator_id ->
                         query_operator db' j = query_operator db j)
           /\ map Operator.id (operators db') = map Operator.id (operators db)
           /\ (forall o, get_current_load db' o = get_current_load db o)
           /\ operator_source_weights db' = operator_source_weights db
           /\ requests db' = requests db
           /\ (operators_keyed db -> operators_keyed db')
           /\ (db_consistent db -> db_consistent db')).
Proof.
  rewrite call_update_operator. split.
  - intros ->. reflexivity.
  - intros response db' Hcall.
    destruct (query_operator db operator_id) as [operator |] eqn:Eop; [| discriminate].
    cbv zeta in Hcall. injection Hcall as <- <-.
    set (row := updated_operator operator operator_update).
    apply query_operator_Some in Eop as Eop'. destruct Eop' as [_ Hid].
    assert (Hq : forall j, query_operator
                             (Admin.apply_statement db (Admin.UpdateOperator row)) j
                           = option_map (Admin.replace_operator row) (query_operator db j)).
    { intros j. unfold query_operator. cbn [Admin.apply_statement operators].
      apply find_replace_operator. }
    assert (Hself : query_operator
                      (Admin.apply_statement db (Admin.UpdateOperator row)) operator_id
                    = Some row).
    { rewrite Hq, Eop. cbn [option_map]. unfold Admin.replace_operator.
      cbn [row updated_operator Operator.id]. now rewrite Z.eqb_refl. }
    assert (Hids : map Operator.id
                       (operators (Admin.apply_statement db (Admin.UpdateOperator row)))
                   = map Operator.id (operators db)).
    { cbn [Admin.apply_statement operators]. apply replace_operator_ids. }
    cbn [Admin.apply_statement] in Hq, Hself, Hids.
    exists operator. split; [reflexivity |]. split; [exact Hself |].
    split; [| split; [| split; [exact Hids |]]].
    + rewrite call_get_operator, Hself. reflexivity.
    + intros j Hj. rewrite Hq.
      destruct (query_operator db j) as [o |] eqn:Eo; [| reflexivity].
      apply query_operator_Some in Eo as [_ Hoid]. cbn [option_map]. f_equal.
      unfold Admin.replace_operator. cbn [row updated_operator Operator.id].
      destruct (Z.eqb_spec (Operator.id o) (Operator.id operator)); [congruence | reflexivity].
    + split; [reflexivity |]. split; [reflexivity |]. split; [reflexivity |]. split.
      * unfold operators_keyed. now rewrite Hids.
      * intros [Hfk Hpos]. split; [| exact Hpos].
        intros wrow Hw. rewrite Hq.
        specialize (Hfk wrow Hw).
        destruct (query_operator db (OperatorSourceWeight.operator_id wrow));
          [discriminate | congruence].
Qed.

Lemma update_operator_effect_witness :
  exists response db',
    Admin.call (Admin.update_operator 2 (OperatorUpdate.mk None None (Some 5)))
               example_db = (Return response, db')
    /\ call (get_operator 2) db' = (Return response, db')
    /\ OperatorResponse.max_load response = 5.
Proof.
  destruct (Admin.call (Admin.update_operator 2 (OperatorUpdate.mk None None (Some 5)))
                       example_db) as [o db'] eqn:Ecall.
  assert (Hret : exists response,
             o = Return response /\ OperatorResponse.max_load response = 5).
  { vm_compute in Ecall. injection Ecall as <- _. eexists; split; reflexivity. }
  destruct Hret as (response & -> & Hmax).
  destruct (proj2 (update_operator_effect example_db 2
                     (OperatorUpdate.mk None None (Some 5)))
                  response db' Ecall) as (operator & _ & _ & Hget & _).
  exists response, db'. split; [reflexivity |]. split; assumption.
Defined.

Lemma update_operator_new_row (db db' : Db) (operator_id : Z)
      (operator_update : OperatorUpdate.t) (response : OperatorResponse.t) :
  Admin.call (Admin.update_operator operator_id operator_update) db
  = (Return response, db') ->
  exists operator,
    query_operator db operator_id = Some operator
    /\ query_operator db' operator_id
       = Some (updated_operator operator operator_update).
Proof.
  rewrite call_update_operator.
  destruct (query_operator db operator_id) as [operator |] eqn:Eop; [| discriminate].
  cbv zeta. intros H. injection H as _ <-.
  exists operator. split; [reflexivity |].
  unfold query_operator in *. cbn [Admin.apply_statement operators].
  rewrite find_replace_operator, Eop. cbn [option_map].
  unfold Admin.replace_operator. cbn [updated_operator Operator.id].
  now rewrite Z.eqb_refl.
Qed.

(** X23.  After an [update_operator] that switched an operator off
    ([is_active = false]), no draw assigns an operator with that id, for
    any source. *)
Theorem deactivated_operator_is_not_assigned
        (db db' : Db) (operator_id : Z) (name : option string) (max_load : option Z)
        (response : OperatorResponse.t) :
  Admin.call (Admin.update_operator
                operator_id (OperatorUpdate.mk name (Some false) max_load)) db
  = (Return response, db') ->
  forall source_id rnd op,
    assign_operator_to_request db' source_id rnd = Return (Some op) ->
    Operator.id op <> operator_id.
Proof.
  intros Hcall source_id rnd op Hassign Hid.
  apply update_operator_new_row in Hcall as (operator & _ & Hnew).
  apply assign_operator_to_request_sound in Hassign as (row & _ & _ & Hq & Hact & _).
  apply query_operator_Some in Hq as Hq'. destruct Hq' as [_ Hrow].
  rewrite <- Hrow, Hid, Hnew in Hq. injection Hq as <-.
  cbn in Hact. discriminate.
Qed.

Lemma deactivated_operator_is_not_assigned_witness :
  exists response db',
    Admin.call (Admin.update_operator 1 (OperatorUpdate.mk None (Some false) None))
               example_db = (Return response, db')
    /\ forall rnd op,
        assign_operator_to_request db' 1 rnd = Return (Some op) ->
        Operator.id op <> 1.
Proof.
  destruct (Admin.call (Admin.update_operator 1 (OperatorUpdate.mk None (Some false) None))
                       example_db) as [o db'] eqn:Ecall.
  assert (Hret : exists response, o = Return response).
  { vm_compute in Ecall. injection Ecall as <- _. eexists; reflexivity. }
  destruct Hret as [response ->].
  exists response, db'. split; [reflexivity |].
  exact (deactivated_operator_is_not_assigned
           example_db db' 1 None None response Ecall 1).
Defined.

(** X24.  When operator ids are distinct, an [update_operator] that names
    no field leaves the database as it was. *)
Theorem update_operator_without_fields
        (db : Db) (operator_id : Z) :
  operators_keyed db ->
  snd (Admin.call (Admin.update_operator
                     operator_id (OperatorUpdate.mk None None None)) db)
  = db.
Proof.
  intros Hkey. rewrite call_update_operator.
  destruct (query_operator db operator_id) as [operator |] eqn:Eop; [| reflexivity].
  cbv zeta. cbn [snd].
  apply query_operator_Some in Eop as [Hin _].
  assert (Hsame : updated_operator operator (OperatorUpdate.mk None None None) = operator)
    by (destruct operator; reflexivity).
  rewrite Hsame. cbn [Admin.apply_statement].
  assert (Hmap : map (Admin.replace_operator operator) (operators db) = operators db).
  { rewrite <- (map_id (operators db)) at 2. apply map_ext_in. intros o Ho.
    unfold Admin.replace_operator.
    destruct (Z.eqb_spec (Operator.id o) (Operator.id operator)) as [Heq | _];
      [| reflexivity].
    symmetry. eapply NoDup_map_injective; eassumption. }
  rewrite Hmap. destruct db; reflexivity.
Qed.

Lemma update_operator_without_fields_witness :
  operators_keyed example_db
  /\ snd (Admin.call (Admin.update_operator 1 (OperatorUpdate.mk None None None))
                     example_db)
     = example_db.
Proof.
  split; [exact example_db_keyed |].
  exact (update_operator_without_fields example_db 1 example_db_keyed).
Defined.

Lemma create_operator_adds_operator_facts (db : Db) (operator : OperatorCreate.t) :
  let db' := Admin.apply_statement db (Admin.InsertOperator (new_operator db operator)) in
  operators db' = (operators db ++ [new_operator db operator])%list
  /\ requests db' = requests db
  /\ (requests_reference_operators db ->
      get_current_load db' (new_operator db operator) = 0).
Proof.
  cbv zeta. split; [reflexivity |]. split; [reflexivity |].
  intros Hreq. unfold get_current_load. cbn [Admin.apply_statement requests].
  set (row := new_operator db operator).
  assert (Hall : forall r, In r (requests db) ->
                           is_active_request_of (Operator.id row) r = false).
  { intros r Hr. unfold is_active_request_of.
    destruct (Request.operator_id r) as [i |] eqn:Ei; cbn [opt_eqb]; [| reflexivity].
    destruct (Z.eqb_spec i (Operator.id row)) as [Heq | _]; [| reflexivity].
    exfalso. specialize (Hreq r i Hr Ei).
    destruct (query_operator db i) as [o |] eqn:Eo; [| congruence].
    apply query_operator_Some in Eo as [Ho Hid].
    apply (new_operator_fresh db operator o Ho). fold row. congruence. }
  assert (Hnone : filter (is_active_request_of (Operator.id row)) (requests db) = []).
  { clear - Hall. induction (requests db) as [| r l IH]; [reflexivity |].
    cbn [filter]. rewrite (Hall r (or_introl eq_refl)).
    apply IH. intros r' Hr'. apply Hall. now right. }
  rewrite Hnone. reflexivity.
Qed.

(** X25.  [create_operator] keeps the capacity invariant when the submitted
    maximum load is not negative and no request refers to a missing
    operator: the loads of the existing operators do not change and the new
    operator starts with load 0. *)
Theorem create_operator_keeps_capacity (db : Db) (operator : OperatorCreate.t) :
  requests_reference_operators db ->
  0 <= OperatorCreate.max_load operator ->
  capacity_invariant db ->
  capacity_invariant (snd (Admin.call (Admin.create_operator operator) db)).
Proof.
  intros Hreq Hmax Hinv.
  destruct (create_operator_adds_operator_facts db operator)
    as (Hops & Hreqs & Hload).
  rewrite call_create_operator. cbn [snd].
  intros op Hop. rewrite Hops in Hop. apply in_app_or in Hop as [Hold | [<- | []]].
  - rewrite (get_current_load_requests _ db op Hreqs). now apply Hinv.
  - rewrite (Hload Hreq). exact Hmax.
Qed.

Lemma create_operator_keeps_capacity_witness :
  requests_reference_operators example_db
  /\ capacity_invariant example_db
  /\ capacity_invariant
       (snd (Admin.call (Admin.create_operator (OperatorCreate.mk "Carol" true 3))
                        example_db)).
Proof.
  assert (Hreq : requests_reference_operators example_db) by (intros r k []).
  split; [exact Hreq |]. split; [exact example_db_within_capacity |].
  apply (create_operator_keeps_capacity example_db (OperatorCreate.mk "Carol" true 3)
           Hreq).
  - cbv. congruence.
  - exact example_db_within_capacity.
Defined.

Lemma call_create_source (db : Db) (source : SourceCreate.t) :
  Admin.call (Admin.create_source source) db
  = match query_source_by_name db (SourceCreate.name source) with
    | Some _ => (Raise (HTTPException 400 "Source with this name already exists"), db)
    | None => (Return (new_source db source),
               Admin.apply_statement db (Admin.InsertSource (new_source db source)))
    end.
Proof.
  unfold Admin.call, Admin.create_source, query_source_by_name.
  cbv beta iota zeta delta [Admin.bind Admin.query Admin.raise].
  cbn [Admin.view Admin.pending Admin.store fold_left].
  destruct (find _ (sources db)); reflexivity.
Qed.

(** X26.  [create_source] raises, with 400 and without a change, exactly
    when a source already has the submitted name; so source names that are
    distinct stay distinct, and so do source ids. *)
Theorem create_source_keeps_names_unique (db : Db) (source : SourceCreate.t) :
  (In (SourceCreate.name source) (map Source.name (sources db))
   <-> Admin.call (Admin.create_source source) db
       = (Raise (HTTPException 400 "Source with this name already exists"), db))
  /\ (NoDup (map Source.name (sources db)) ->
      NoDup (map Source.name
                 (sources (snd (Admin.call (Admin.create_source source) db)))))
  /\ (NoDup (map Source.id (sources db)) ->
      NoDup (map Source.id
                 (sources (snd (Admin.call (Admin.create_source source) db))))).
Proof.
  rewrite call_create_source. unfold query_source_by_name.
  destruct (find (fun s => String.eqb (Source.name s) (SourceCreate.name source))
                 (sources db)) as [s |] eqn:Efind.
  - cbn [snd]. split; [| split; trivial].
    split; [reflexivity | intros _].
    apply find_some in Efind as [Hin Hname]. apply String.eqb_eq in Hname.
    rewrite <- Hname. now apply in_map.
  - assert (Hfresh : ~ In (SourceCreate.name source) (map Source.name (sources db))).
    { intros Hin. apply in_map_iff in Hin as (s & Hname & Hs).
      pose proof (find_none _ _ Efind s Hs) as Hno. cbn in Hno.
      apply String.eqb_neq in Hno. congruence. }
    cbn [snd Admin.apply_statement sources]. split; [| split].
    + split; [intros Hin; contradiction | discriminate].
    + intros Hnd. rewrite map_app. apply NoDup_app; [exact Hnd | |].
      * cbn. constructor; [intros [] | constructor].
      * intros n Hn [<- | []]. exact (Hfresh Hn).
    + intros Hnd. rewrite map_app. apply NoDup_app; [exact Hnd | |].
      * cbn. constructor; [intros [] | constructor].
      * intros k Hk [<- | []]. cbn [new_source Source.id] in Hk.
        pose proof (next_id_fresh _ _ Hk). lia.
Qed.

(** X27.  After a [create_source] that returned, [get_source] with the
    answered id gives the same source; a second [create_source] with the
    same name is rejected with 400; and, when every weight row belonged to
    an existing source, the new source has no weight rows, so no operator
    is assigned for it until weights are configured. *)
Theorem create_source_then_get_source
        (db db' : Db) (source : SourceCreate.t) (row : Source.t) :
  Admin.call (Admin.create_source source) db = (Return row, db') ->
  Source.name row = SourceCreate.name source
  /\ call (get_source (Source.id row)) db' = (Return row, db')
  /\ Admin.call (Admin.create_source source) db'
     = (Raise (HTTPException 400 "Source with this name already exists"), db')
  /\ (weights_reference_sources db ->
      query_weights db' (Source.id row) = []
      /\ forall rnd, assign_operator_to_request db' (Source.id row) rnd = Return None).
Proof.
  rewrite call_create_source. unfold query_source_by_name.
  destruct (find (fun s => String.eqb (Source.name s) (SourceCreate.name source))
                 (sources db)) as [s |] eqn:Efind; [discriminate |].
  intros H. injection H as <- <-.
  set (row := new_source db source).
  assert (Hfresh : forall s, In s (sources db) -> Source.id s <> Source.id row).
  { intros s Hs. cbn [row new_source Source.id].
    pose proof (next_id_fresh (map Source.id (sources db)) (Source.id s)
                  (in_map Source.id _ _ Hs)).
    lia. }
  split; [reflexivity |]. split; [| split].
  - rewrite call_get_source. unfold query_source.
    cbn [Admin.apply_statement sources].
    rewrite find_app_last; [reflexivity | | apply Z.eqb_refl].
    intros s Hs. apply Z.eqb_neq. now apply Hfresh.
  - rewrite call_create_source. unfold query_source_by_name.
    cbn [Admin.apply_statement sources].
    rewrite find_app_last; [reflexivity | | apply String.eqb_refl].
    intros s Hs. exact (find_none _ _ Efind s Hs).
  - intros Hfk.
    assert (Hq : query_weights (Admin.apply_statement db (Admin.InsertSource row))
                               (Source.id row) = []).
    { unfold query_weights. cbn [Admin.apply_statement operator_source_weights].
      assert (Hall : forall w, In w (operator_source_weights db) ->
                               (OperatorSourceWeight.source_id w =? Source.id row) = false).
      { intros w Hw. apply Z.eqb_neq. intros Heq.
        specialize (Hfk w Hw).
        destruct (query_source db (OperatorSourceWeight.source_id w)) as [s |] eqn:Es;
          [| congruence].
        unfold query_source in Es. apply find_some in Es as [Hs Hid].
        apply Z.eqb_eq in Hid. apply (Hfresh s Hs). congruence. }
      clear - Hall. induction (operator_source_weights db) as [| w l IH]; [reflexivity |].
      cbn [filter]. rewrite (Hall w (or_introl eq_refl)).
      apply IH. intros w' Hw'. apply Hall. now right. }
    cbn [Admin.apply_statement] in Hq.
    split; [exact Hq |]. intros rnd.
    unfold assign_operator_to_request, get_available_operators. rewrite Hq. reflexivity.
Qed.

Lemma create_source_then_get_source_witness :
  exists row db',
    Admin.call (Admin.create_source (SourceCreate.mk "site" None)) example_db
    = (Return row, db')
    /\ call (get_source (Source.id row)) db' = (Return row, db').
Proof.
  destruct (Admin.call (Admin.create_source (SourceCreate.mk "site" None)) example_db)
    as [o db'] eqn:Ecall.
  assert (Hret : exists row, o = Return row).
  { vm_compute in Ecall. injection Ecall as <- _. eexists; reflexivity. }
  destruct Hret as [row ->].
  exists row, db'. split; [reflexivity |].
  exact (proj1 (proj2 (create_source_then_get_source
                         example_db db' (SourceCreate.mk "site" None) row Ecall))).
Defined.


Lemma call_list_leads_with_requests (db : Db) :
  call list_leads_with_requests db
  = (Return (map (fun lead =>
                    LeadWithRequestsResponse.mk
                      lead (map (request_response db) (lead_requests db lead)))
                 (leads db)), db).
Proof. reflexivity. Qed.

(** X29.  When every request belongs to an existing lead, a
    [create_request] that returned for an external id that no lead had adds
    one entry at the end of [list_leads_with_requests]: a new lead with that
    external id, listed with the answered request alone; the entries of the
    other leads do not change. *)
Theorem create_request_for_new_lead_then_list_leads
        (db db' : Db) (request_data : RequestCreate.t) (rnd : Q)
        (response : RequestResponse.t) :
  requests_reference_leads db ->
  query_lead_by_external_id db (RequestCreate.lead_external_id request_data) = None ->
  call (create_request request_data rnd) db = (Return response, db') ->
  exists before lead,
    call list_leads_with_requests db = (Return before, db)
    /\ Lead.id lead = RequestResponse.lead_id response
    /\ Lead.external_id lead = RequestCreate.lead_external_id request_data
    /\ call list_leads_with_requests db'
       = (Return (before ++ [LeadWithRequestsResponse.mk lead [response]])%list, db').
Proof.
  intros Hfk Hnew Hcall.
  apply call_create_request_Return in Hcall as (a & _ & Ha & -> & ->).
  destruct (after_create_request_tables db request_data a) as (Ho & _ & _ & Hr).
  set (db' := after_create_request db request_data a) in *.
  set (lead := lead_for db request_data).
  set (row := request_row db request_data a) in *.
  assert (Hlead : lead = Lead.mk (next_id (map Lead.id (leads db)))
                                 (RequestCreate.lead_external_id request_data)
                                 (RequestCreate.lead_name request_data)
                                 (RequestCreate.lead_email request_data)
                                 (RequestCreate.lead_phone request_data)).
  { unfold lead, lead_for. now rewrite Hnew. }
  assert (Hleads : leads db' = (leads db ++ [lead])%list).
  { unfold db', after_create_request, lead_writes, view. rewrite Hnew.
    reflexivity. }
  assert (Hfresh : forall l, In l (leads db) -> Lead.id l <> Lead.id lead).
  { intros l Hl. rewrite Hlead. cbn [Lead.id].
    pose proof (next_id_fresh (map Lead.id (leads db)) (Lead.id l)
                  (in_map Lead.id _ _ Hl)).
    lia. }
  assert (Hrowlead : Request.lead_id row = Lead.id lead) by reflexivity.
  assert (Hresp : forall req, request_response db' req = request_response db req)
    by (intros req; now apply request_response_operators).
  exists (map (fun l => LeadWithRequestsResponse.mk
                          l (map (request_response db) (lead_requests db l)))
              (leads db)), lead.
  split; [apply call_list_leads_with_requests |].
  split; [reflexivity |]. split; [rewrite Hlead; reflexivity |].
  rewrite call_list_leads_with_requests, Hleads, map_app. do 3 f_equal.
  - apply map_ext_in. intros l Hl. f_equal.
    unfold lead_requests. rewrite Hr, filter_app. cbn [filter].
    rewrite Hrowlead.
    destruct (Z.eqb_spec (Lead.id lead) (Lead.id l)) as [Heq | _].
    { exfalso. exact (Hfresh l Hl (eq_sym Heq)). }
    rewrite app_nil_r. apply map_ext. exact Hresp.
  - cbn [map]. f_equal. f_equal.
    unfold lead_requests. rewrite Hr, filter_app. cbn [filter].
    rewrite Hrowlead, Z.eqb_refl.
    assert (Hnone : filter (fun r => Request.lead_id r =? Lead.id lead) (requests db) = []).
    { assert (Hall : forall r, In r (requests db) ->
                               (Request.lead_id r =? Lead.id lead) = false).
      { intros r Hin. apply Z.eqb_neq. intros Heq.
        destruct (Hfk r Hin) as (l & Hl & Hid).
        apply (Hfresh l Hl). congruence. }
      clear - Hall. induction (requests db) as [| r l IH]; [reflexivity |].
      cbn [filter]. rewrite (Hall r (or_introl eq_refl)).
      apply IH. intros r' Hr'. apply Hall. now right. }
    rewrite Hnone. cbn [app map]. f_equal.
    rewrite Hresp. unfold row. eapply request_response_of_new_row. exact Ha.
Qed.

Lemma create_request_for_new_lead_then_list_leads_witness :
  requests_reference_leads example_db
  /\ exists response db' before lead,
      call (create_request (RequestCreate.mk "new-lead" 1 None None None None) 0)
           example_db = (Return response, db')
      /\ call list_leads_with_requests example_db = (Return before, example_db)
      /\ call list_leads_with_requests db'
         = (Return (before ++ [LeadWithRequestsResponse.mk lead [response]])%list, db').
Proof.
  assert (Hfk : requests_reference_leads example_db) by (intros r []).
  split; [exact Hfk |].
  destruct (call (create_request (RequestCreate.mk "new-lead" 1 None None None None) 0)
                 example_db) as [o db'] eqn:Ecall.
  assert (Hret : exists response, o = Return response).
  { vm_compute in Ecall. injection Ecall as <- _. eexists; reflexivity. }
  destruct Hret as [response ->].
  destruct (create_request_for_new_lead_then_list_leads
              example_db db' (RequestCreate.mk "new-lead" 1 None None None None) 0
              response Hfk eq_refl Ecall)
    as (before & lead & Hbefore & _ & _ & Hafter).
  exists response, db', before, lead. split; [reflexivity |]. split; assumption.
Defined.

